(** * follow-scraper: the follower collector and the snapshot diff

    A shallow embedding of [follow_scraper.py] and [diff.py], and the
    properties of the collector's design that are checked against it.

    Conventions of the embedding.
    - A Python [str] is a [string]; each character stands for one code
      point below 256.
    - A [set[str]] is a [gset string]; [len] of a set is its [size].
    - A [dict] read with [.get] is a record of optional fields; a
      subscript [d['k']] on an absent key raises [KeyError]. The values
      under ['users'] and ['username'] come with the kinds that the
      annotations of the source leave out, and on which its operations
      raise [TypeError].
    - The network, the disk, the random source and the console are the
      fields of a [World] that every effectful function threads.
    - [while] loops take a fuel argument; running out of it is the
      outcome [OutOfFuel], never a value. *)

From Stdlib Require Import ZArith Ascii String List Lia.
From stdpp Require Import base option list sorting gmap strings.

Local Open Scope Z_scope.

(** ** Python's string primitives *)

Module Py.

Definition LF : ascii := "010"%char.
Definition CR : ascii := "013"%char.

(** [str.isspace] on one character: the code points below 256 that
    Python counts as whitespace are 9-13, 28-32, 133 and 160. *)
Definition isspace (c : ascii) : bool :=
  let n := N_of_ascii c in
  ((9 <=? n) && (n <=? 13) || (28 <=? n) && (n <=? 32)
   || (n =? 133) || (n =? 160))%N.

Fixpoint lstrip (s : string) : string :=
  match s with
  | EmptyString => EmptyString
  | String c s' => if isspace c then lstrip s' else s
  end.

Fixpoint rstrip (s : string) : string :=
  match s with
  | EmptyString => EmptyString
  | String c s' =>
      match rstrip s' with
      | EmptyString => if isspace c then EmptyString else String c EmptyString
      | r => String c r
      end
  end.

(** [s.strip()] *)
Definition strip (s : string) : string := rstrip (lstrip s).

(** Truth value of a string: [if s] holds for every string but [''] *)
Definition truthy (s : string) : bool :=
  match s with EmptyString => false | _ => true end.

(** [sep.join(l)] *)
Fixpoint join (sep : string) (l : list string) : string :=
  match l with
  | [] => ""
  | [x] => x
  | x :: l' => x +:+ sep +:+ join sep l'
  end.

Definition newline : string := String LF EmptyString.

(** [s.split(sep)] for a separator of one character *)
Fixpoint split (sep : ascii) (s : string) : list string :=
  match s with
  | EmptyString => [EmptyString]
  | String c s' =>
      if Ascii.eqb c sep then EmptyString :: split sep s'
      else match split sep s' with
           | l :: ls => String c l :: ls
           | [] => [String c EmptyString]
           end
  end.

(** [s] without the prefix [p], when it starts with it *)
Fixpoint drop_prefix (p s : string) : option string :=
  match p, s with
  | EmptyString, _ => Some s
  | String a p', String b s' =>
      if Ascii.eqb a b then drop_prefix p' s' else None
  | String _ _, EmptyString => None
  end.

(** [s.split(sep, 1)] when [sep in s]: what is before and what is after
    the first occurrence of [sep]; [None] when [sep not in s]. *)
Fixpoint partition (sep s : string) : option (string * string) :=
  match drop_prefix sep s with
  | Some rest => Some (EmptyString, rest)
  | None =>
      match s with
      | EmptyString => None
      | String c s' =>
          match partition sep s' with
          | Some (before, rest) => Some (String c before, rest)
          | None => None
          end
      end
  end.

(** [s.isdigit()]: not empty, and every character a digit; below 256
    these are 0-9 and the superscripts 178, 179 and 185. *)
Definition isdigit_char (c : ascii) : bool :=
  let n := N_of_ascii c in
  ((48 <=? n) && (n <=? 57) || (n =? 178) || (n =? 179) || (n =? 185))%N.

Fixpoint all_chars (p : ascii → bool) (s : string) : bool :=
  match s with
  | EmptyString => true
  | String c s' => p c && all_chars p s'
  end.

Definition isdigit (s : string) : bool := truthy s && all_chars isdigit_char s.

(** [s.lower()]: below 256 the upper case letters are 65-90 and 192-222
    but 215, each 32 below its lower case letter. *)
Definition lower_char (c : ascii) : ascii :=
  let n := N_of_ascii c in
  if ((65 <=? n) && (n <=? 90)
      || (192 <=? n) && (n <=? 222) && negb (n =? 215))%N
  then ascii_of_N (n + 32) else c.

Fixpoint lower (s : string) : string :=
  match s with
  | EmptyString => EmptyString
  | String c s' => String (lower_char c) (lower s')
  end.

(** [sorted(l)] on strings: ascending in the order of the code points. *)
Definition sorted (l : list string) : list string :=
  merge_sort String.le l.

(** [len(s)] of a set *)
Definition len (s : gset string) : Z := Z.of_nat (size s).

(** Reading a text file opened with [open(path, 'r')]: the universal
    newlines mode turns each of [\r\n] and [\r] into [\n]. *)
Fixpoint universal_newlines (s : string) : string :=
  match s with
  | EmptyString => EmptyString
  | String c s' =>
      if Ascii.eqb c CR then
        String LF (match s' with
                   | String c' s'' =>
                       if Ascii.eqb c' LF then universal_newlines s''
                       else universal_newlines s'
                   | EmptyString => EmptyString
                   end)
      else String c (universal_newlines s')
  end.

(** Cutting a text into lines, each with its terminating [\n] (the last
    one has none when the text does not end with [\n]). *)
Fixpoint split_keepends (s : string) : list string :=
  match s with
  | EmptyString => []
  | String c s' =>
      if Ascii.eqb c LF then String LF EmptyString :: split_keepends s'
      else match split_keepends s' with
           | [] => [String c EmptyString]
           | l :: ls => String c l :: ls
           end
  end.

(** [for line in f], and [f.readlines()] *)
Definition readlines (content : string) : list string :=
  split_keepends (universal_newlines content).

End Py.

(** ** The disk *)

(** What [open(path, 'r')] followed by reading finds at a path: a text,
    or a file whose reading raises (a directory, a permission or a
    decoding error). A path absent from the map raises
    [FileNotFoundError]. *)
Inductive file : Type :=
| Text (content : string)
| Unreadable.

Abbreviation disk := (gmap string file).

(** ** diff.py *)

Module Diff.

(** The set comprehension of [load_usernames]:
    [{line.strip() for line in f if line.strip()}] *)
Definition usernames_of (content : string) : gset string :=
  list_to_set
    (Py.strip <$> filter (λ line, Py.truthy (Py.strip line) = true)
                         (Py.readlines content)).

Definition load_usernames (fs : disk) (filepath : string)
  : option (gset string) :=
  match fs !! filepath with
  | Some (Text content) => Some (usernames_of content)
  | Some Unreadable => None          (* except Exception *)
  | None => None                     (* except FileNotFoundError *)
  end.

(** The local variables of [main] after step 3. *)
Record locals : Type := Locals {
  followers_old : gset string;
  followers_new : gset string;
  lost_followers : gset string;
  new_followers : gset string;
  old_count : Z;
  new_count : Z;
  net_change : Z
}.

(** Step 3 of [main], statement by statement. *)
Definition set_arithmetic (followers_old followers_new : gset string)
  : locals :=
  let lost_followers := followers_old ∖ followers_new in
  let new_followers := followers_new ∖ followers_old in
  let old_count := Py.len followers_old in
  let new_count := Py.len followers_new in
  let net_change := new_count - old_count in
  Locals followers_old followers_new lost_followers new_followers
         old_count new_count net_change.

(** The two detailed sections of the report: the sorted members, or the
    line that says there are none. *)
Definition lost_section (l : locals) : list string :=
  if decide (lost_followers l = ∅)
  then ["N/A - No followers were lost."]
  else Py.sorted (elements (lost_followers l)).

Definition new_section (l : locals) : list string :=
  if decide (new_followers l = ∅)
  then ["N/A - No new followers were gained."]
  else Py.sorted (elements (new_followers l)).

(** How [main] ends: [sys.exit(1)], or the end of the function with the
    values it computed. *)
Inductive ending : Type :=
| SystemExit (code : Z)
| Returned (l : locals).

Definition main (argv : list string) (fs : disk) : ending :=
  match argv with
  | [_; file_old; file_new] =>
      match load_usernames fs file_old, load_usernames fs file_new with
      | Some followers_old, Some followers_new =>
          Returned (set_arithmetic followers_old followers_new)
      | _, _ => SystemExit 1
      end
  | _ => SystemExit 1
  end.

End Diff.

(** ** follow_scraper.py *)

Module FollowScraper.

(** *** The data that comes back from the API *)

(** The value under ['username'] in a user: a string, or a JSON value
    of another kind ([null], a number, a list, ...), which
    [', '.join(usernames)] refuses. *)
Inductive name : Type :=
| Str (s : string)
| NotStr.

(** One element of [users]: an object, with what [user['username']]
    finds in it ([None] when it has no such key), or a JSON value that
    is not an object, which [user['username']] cannot index. *)
Inductive user : Type :=
| Dict (username : option name)
| NotDict.

(** The value under ['users'] when the key is there: a list of elements
    (an empty string and an empty object iterate like the empty list),
    or a value on which [[user['username'] for user in users]] raises
    [TypeError]: [null], a number or a boolean, which cannot be
    iterated, and a non-empty string or object, whose elements are
    strings. *)
Inductive users_value : Type :=
| UsersList (l : list user)
| UsersOther.

(** The decoded body when it is a JSON object, through the four keys
    the code reads. [status] is [None] when the key is absent or its
    value is no string; [users] is [None] when the key is absent, and so
    [data.get('users', [])] is the default; [has_more] is the truth
    value of what is under the key, [None] when absent; [next_max_id]
    is [None] when absent or [null], the cursor when it is a string,
    and for a value of another kind the text that the URL shows for
    it, which is empty when the value is falsy. *)
Record body : Type := Body {
  status : option string;
  users : option users_value;
  has_more : option bool;
  next_max_id : option string
}.

(** What [response.json()] gives, and so what [fetch_followers] returns:
    [None] (a [null] body, or the failure value), a [dict], or a JSON
    value of another kind (a list, a string, a number), which has no
    [.get]. *)
Inductive pyjson : Type :=
| PyNone
| PyDict (d : body)
| PyOther.

Inductive json_outcome : Type :=
| JSONDecodeError
| Json (v : pyjson).

(** The response object, through what the code asks of it: the status
    code that [raise_for_status()] looks at, what [json()] does and the
    raw [text]. *)
Record Response : Type := {
  status_code : Z;
  json : json_outcome;
  text : string
}.

(** Whether [response.raise_for_status()] raises [HTTPError]: requests
    does so for the client errors, 400 to 499, and the server errors,
    500 to 599, and for no other status code. *)
Definition raise_for_status (response : Response) : bool :=
  (400 <=? status_code response) && (status_code response <? 600).

(** [requests.get(url, headers=headers, timeout=10)]: a network-level
    [RequestException] (a timeout, a refused connection), or a
    response. *)
Inductive get_outcome : Type :=
| RequestException
| Got (response : Response).

(** *** Exceptions and outcomes *)

Inductive exn : Type :=
| KeyError (key : string)
| AttributeError
| TypeError
| OSError
| SystemExit (code : Z).

Inductive outcome (A : Type) : Type :=
| Return (a : A)
| Raise (e : exn)
| OutOfFuel.
Arguments Return {A} a.
Arguments Raise {A} e.
Arguments OutOfFuel {A}.

(** *** The console *)

(** What [load_request_data] can find wrong with the request file. *)
Inductive config_error : Type :=
| ConfigNotFound
| ConfigEmpty
| BadRequestLine
| NotFollowerAPI (full_path : string)
| NoTargetId (full_path : string)
| MissingHeader (name : string).

(** The lines printed, by kind, with the values they show. *)
Inductive message : Type :=
| MsgNotJSON (snippet : string)
| MsgHTTPError
| MsgRequestError
| MsgStartCycle
| MsgCycleTerminated
| MsgPage (pages_fetched total : Z) (usernames : list string)
| MsgCycleComplete (pages_fetched : Z)
| MsgStatusNotOk (data : body)
| MsgUsage
| MsgBadTargetCount
| MsgInitialized (target_id base_url : string) (target_count : Z)
| MsgSkipping
| MsgAborting
| MsgCycleStatus (cycle_number found added total target_count : Z)
| MsgTargetReached
| MsgTemporarySaveError
| MsgWaiting (seconds next_cycle : Z)
| MsgFinalOutputSuccessful (saved : Z) (output_filename : string)
| MsgFinalSaveError
| MsgConfigError (e : config_error).

(** *** The world *)

(** Everything outside the process. The network and the random source
    answer the n-th question put to them; a write either succeeds or
    raises, leaving the path in the state the n-th fault names. *)
Record World : Type := {
  network : nat → string → gmap string string → get_outcome;
  requested : list string;            (* URLs asked for, the latest first *)
  random : nat → nat;
  draws : nat;
  slept : list Z;                     (* time.sleep calls, the latest first *)
  files : disk;
  write_faults : nat → option (option file);
  writes : nat;
  stdout : list message;              (* the latest first *)
  timestamp : string                  (* datetime.now().strftime(...) *)
}.

Definition M (A : Type) : Type := World → outcome A * World.

Definition ret {A} (a : A) : M A := λ w, (Return a, w).
(** A computation that asks nothing of the world. *)
Definition lift {A} (r : outcome A) : M A := λ w, (r, w).
Definition raise {A} (e : exn) : M A := λ w, (Raise e, w).
Definition out_of_fuel {A} : M A := λ w, (OutOfFuel, w).
Definition bind {A B} (m : M A) (k : A → M B) : M B :=
  λ w, match m w with
       | (Return a, w') => k a w'
       | (Raise e, w') => (Raise e, w')
       | (OutOfFuel, w') => (OutOfFuel, w')
       end.

Notation "'let*' x := m 'in' k" := (bind m (λ x, k))
  (at level 10, x name, m at level 99, k at level 200).
Notation "m ;; k" := (bind m (λ _, k))
  (at level 100, k at level 200, right associativity).

Definition print (m : message) : M unit :=
  λ w, (Return tt,
        {| network := network w; requested := requested w;
           random := random w; draws := draws w; slept := slept w;
           files := files w; write_faults := write_faults w;
           writes := writes w; stdout := m :: stdout w;
           timestamp := timestamp w |}).

Definition requests_get (url : string) (headers : gmap string string)
  : M get_outcome :=
  λ w, (Return (network w (length (requested w)) url headers),
        {| network := network w; requested := url :: requested w;
           random := random w; draws := draws w; slept := slept w;
           files := files w; write_faults := write_faults w;
           writes := writes w; stdout := stdout w;
           timestamp := timestamp w |}).

(** [random.randint(a, b)]: an integer of [a..b], both ends included. *)
Definition randint (a b : Z) : M Z :=
  λ w, (Return (a + Z.of_nat (random w (draws w)) mod (b - a + 1)),
        {| network := network w; requested := requested w;
           random := random w; draws := S (draws w); slept := slept w;
           files := files w; write_faults := write_faults w;
           writes := writes w; stdout := stdout w;
           timestamp := timestamp w |}).

Definition sleep (seconds : Z) : M unit :=
  λ w, (Return tt,
        {| network := network w; requested := requested w;
           random := random w; draws := draws w;
           slept := seconds :: slept w;
           files := files w; write_faults := write_faults w;
           writes := writes w; stdout := stdout w;
           timestamp := timestamp w |}).

(** [with open(path, 'w') as f: f.write(content)]; the result tells
    whether it went through ([true]) or raised ([false]). *)
Definition write_file (path content : string) : M bool :=
  λ w,
    let after :=
      match write_faults w (writes w) with
      | None => <[path := Text content]> (files w)
      | Some None => delete path (files w)
      | Some (Some f) => <[path := f]> (files w)
      end in
    (Return (bool_decide (write_faults w (writes w) = None)),
     {| network := network w; requested := requested w;
        random := random w; draws := draws w; slept := slept w;
        files := after; write_faults := write_faults w;
        writes := S (writes w); stdout := stdout w;
        timestamp := timestamp w |}).

(** *** The page fetcher *)

(** [max_id or ''] *)
Definition or_empty (max_id : option string) : string :=
  match max_id with
  | Some s => if Py.truthy s then s else ""
  | None => ""
  end.

Definition page_url (base_url : string) (max_id : option string) : string :=
  base_url +:+ "?count=25&max_id=" +:+ or_empty max_id
           +:+ "&search_surface=follow_list_page".

(** [response.text[:500]] *)
Fixpoint prefix (n : nat) (s : string) : string :=
  match n, s with
  | S n', String c s' => String c (prefix n' s')
  | _, _ => EmptyString
  end.

Definition fetch_followers (base_url target_id : string)
    (max_id : option string) (headers : gmap string string) : M pyjson :=
  let url := page_url base_url max_id in
  let* got := requests_get url headers in
  match got with
  | RequestException =>               (* except RequestException *)
      print MsgRequestError ;; ret PyNone
  | Got response =>
      if raise_for_status response then (* except HTTPError *)
        print MsgHTTPError ;; ret PyNone
      else
        match json response with
        | Json v => ret v
        | JSONDecodeError =>          (* except json.JSONDecodeError *)
            print (MsgNotJSON (prefix 500 (text response))) ;; ret PyNone
        end
  end.

(** *** One cycle *)

(** The local variables of [scrape_single_cycle]. *)
Record cycle_state : Type := CycleState {
  cycle_followers : gset string;
  cursor : option string;             (* next_max_id *)
  pages_fetched : Z
}.

Inductive control (A : Type) : Type :=
| Continue (a : A)
| Break (a : A).
Arguments Continue {A} a.
Arguments Break {A} a.

(** [for user in users]: the elements, when [users] can be iterated
    into values that the comprehension gets past. *)
Definition iterate (users : users_value) : outcome (list user) :=
  match users with
  | UsersList l => Return l
  | UsersOther => Raise TypeError
  end.

(** [[user['username'] for user in users]]: the values under the key,
    or the exception of the first element that has none. *)
Fixpoint usernames_in (us : list user) : outcome (list name) :=
  match us with
  | [] => Return []
  | NotDict :: _ => Raise TypeError
  | Dict None :: _ => Raise (KeyError "username")
  | Dict (Some n) :: us' =>
      match usernames_in us' with
      | Return names => Return (n :: names)
      | other => other
      end
  end.

(** What [cycle_followers.update(usernames)] and
    [', '.join(usernames)] need: strings, all of them; the one or the
    other raises [TypeError] otherwise. *)
Fixpoint strings_in (names : list name) : outcome (list string) :=
  match names with
  | [] => Return []
  | NotStr :: _ => Raise TypeError
  | Str s :: names' =>
      match strings_in names' with
      | Return l => Return (s :: l)
      | other => other
      end
  end.

(** Truth value of [data.get('has_more')] *)
Definition more (d : body) : bool :=
  match has_more d with Some b => b | None => false end.

(** The body of the [while True] loop. *)
Definition cycle_body (base_url target_id : string)
    (headers : gmap string string) (st : cycle_state)
  : M (control cycle_state) :=
  let* data := fetch_followers base_url target_id (cursor st) headers in
  match data with
  | PyNone => print MsgCycleTerminated ;; ret (Break st)
  | PyOther => raise AttributeError   (* data.get on a non-dict *)
  | PyDict d =>
      if decide (status d = Some "ok") then
        let* users := lift (iterate (default (UsersList []) (users d))) in
        let* usernames := lift (usernames_in users) in
        let* usernames := lift (strings_in usernames) in
        let followers := cycle_followers st ∪ list_to_set usernames in
        let pages := pages_fetched st + 1 in
        print (MsgPage pages (Py.len followers) usernames) ;;
        if negb (more d) then
          print (MsgCycleComplete pages) ;;
          ret (Break (CycleState followers (cursor st) pages))
        else
          let next := next_max_id d in
          let* sleep_time := randint 4 12 in
          sleep sleep_time ;;
          ret (Continue (CycleState followers next pages))
      else
        print (MsgStatusNotOk d) ;; ret (Break st)
  end.

Fixpoint cycle_loop (fuel : nat) (base_url target_id : string)
    (headers : gmap string string) (st : cycle_state) : M cycle_state :=
  match fuel with
  | O => out_of_fuel
  | S fuel' =>
      let* c := cycle_body base_url target_id headers st in
      match c with
      | Break st' => ret st'
      | Continue st' => cycle_loop fuel' base_url target_id headers st'
      end
  end.

Definition scrape_single_cycle (fuel : nat) (base_url target_id : string)
    (headers : gmap string string) : M (gset string) :=
  print MsgStartCycle ;;
  let* st := cycle_loop fuel base_url target_id headers
               (CycleState ∅ None 0) in
  ret (cycle_followers st).

(** *** The request file *)

Definition BASE_API_PATH_PATTERN : string := "/api/v1/friendships/".

Definition HEADERS_TO_SKIP : list string :=
  ["host"; "content-length"; "connection"; "pragma"; "cache-control";
   "accept-encoding"; "priority"].

Definition required_headers : list string := ["Cookie"; "X-IG-WWW-Claim"].

(** [f.readlines()] of the request file. *)
Definition read_lines (filepath : string) : M (option (list string)) :=
  λ w, match files w !! filepath with
       | Some (Text content) => (Return (Some (Py.readlines content)), w)
       | Some Unreadable => (Raise OSError, w)
       | None => (Return None, w)     (* FileNotFoundError *)
       end.

(** The loop over [lines[1:]]. *)
Fixpoint parse_headers (lines : list string) (headers : gmap string string)
  : gmap string string :=
  match lines with
  | [] => headers
  | line :: rest =>
      let line := Py.strip line in
      if negb (Py.truthy line) then headers              (* break *)
      else
        match Py.partition ":" line with
        | Some (name, value) =>
            let name := Py.strip name in
            let value := Py.strip value in
            if bool_decide (Py.lower name ∈ HEADERS_TO_SKIP)
            then parse_headers rest headers              (* continue *)
            else parse_headers rest (<[name := value]> headers)
        | None => parse_headers rest headers
        end
  end.

Definition config_exit {A} (e : config_error) : M A :=
  print (MsgConfigError e) ;; raise (SystemExit 1).

Fixpoint check_required (required : list string)
    (headers : gmap string string) : M unit :=
  match required with
  | [] => ret tt
  | req_h :: rest =>
      if decide (headers !! req_h = None)
      then config_exit (MissingHeader req_h)
      else check_required rest headers
  end.

Definition load_request_data (filepath : string)
  : M (gmap string string * string * string) :=
  let* read := read_lines filepath in
  match read with
  | None => config_exit ConfigNotFound
  | Some [] => config_exit ConfigEmpty
  | Some (first :: rest) =>
      match Py.split " " (Py.strip first) with
      | method :: target :: _ =>
          if decide (method = "GET") then
            let full_path := hd EmptyString (Py.split "?" target) in
            match Py.partition BASE_API_PATH_PATTERN full_path with
            | None => config_exit (NotFollowerAPI full_path)
            | Some (_, path_after_base) =>
                let target_id :=
                  hd EmptyString (Py.split "/" path_after_base) in
                if Py.isdigit target_id then
                  let headers := parse_headers rest ∅ in
                  check_required required_headers headers ;;
                  ret (headers,
                       "https://www.instagram.com" +:+ full_path,
                       target_id)
                else config_exit (NoTargetId full_path)
            end
          else config_exit BadRequestLine
      | _ => config_exit BadRequestLine
      end
  end.

(** *** The master loop *)

(** The local variables of [main] that the loop updates. *)
Record master_state : Type := MasterState {
  master_unique_followers : gset string;
  cycle_number : Z
}.

(** [master_unique_followers.update(current_cycle_set)] *)
Definition update (master current_cycle_set : gset string) : gset string :=
  master ∪ current_cycle_set.

(** The text of the output file: ['\n'.join(sorted(list(master)))] *)
Definition snapshot (master : gset string) : string :=
  Py.join Py.newline (Py.sorted (elements master)).

Section Run.

Context (pages_fuel : nat).
Context (HEADERS : gmap string string) (BASE_URL TARGET_ID : string).
Context (target_count : Z) (output_filename : string).

(** The body of the [while] loop of [main]. *)
Definition master_body (st : master_state) : M (control master_state) :=
  let master := master_unique_followers st in
  let cycle_number := cycle_number st + 1 in
  let* current_cycle_set :=
    scrape_single_cycle pages_fuel BASE_URL TARGET_ID HEADERS in
  (if decide (current_cycle_set = ∅) then
     print MsgSkipping ;;
     if (5 <? cycle_number) && (Py.len master =? 0) then
       print MsgAborting ;; raise (SystemExit 1)
     else ret tt
   else ret tt) ;;
  let old_size := Py.len master in
  let master := update master current_cycle_set in
  let new_users_found := Py.len master - old_size in
  print (MsgCycleStatus cycle_number (Py.len current_cycle_set)
           new_users_found (Py.len master) target_count) ;;
  if target_count <=? Py.len master then
    print MsgTargetReached ;;
    ret (Break (MasterState master cycle_number))
  else
    let* saved := write_file output_filename (snapshot master) in
    (if saved : bool then ret tt else print MsgTemporarySaveError) ;;
    let* cycle_sleep_time := randint 30 60 in
    print (MsgWaiting cycle_sleep_time (cycle_number + 1)) ;;
    sleep cycle_sleep_time ;;
    ret (Continue (MasterState master cycle_number)).

(** The variables as they are when the body raises: the cycle has been
    counted, the master set is not yet touched. *)
Definition entered (st : master_state) : master_state :=
  MasterState (master_unique_followers st) (cycle_number st + 1).

(** The [while] loop; next to the outcome, the variables as the loop
    leaves them. *)
Fixpoint master_loop (fuel : nat) (st : master_state) (w : World)
  : outcome unit * master_state * World :=
  if Py.len (master_unique_followers st) <? target_count then
    match fuel with
    | O => (OutOfFuel, st, w)
    | S fuel' =>
        match master_body st w with
        | (Return (Break st'), w') => (Return tt, st', w')
        | (Return (Continue st'), w') => master_loop fuel' st' w'
        | (Raise e, w') => (Raise e, entered st, w')
        | (OutOfFuel, w') => (OutOfFuel, entered st, w')
        end
    end
  else (Return tt, st, w).

(** The final output. *)
Definition final_output (master : gset string) : M unit :=
  let final_list := Py.sorted (elements master) in
  let* saved := write_file output_filename (Py.join Py.newline final_list) in
  if saved : bool then
    print (MsgFinalOutputSuccessful (Z.of_nat (length final_list))
             output_filename)
  else print MsgFinalSaveError.

(** [main] from the creation of the master set to its end. *)
Definition collect (fuel : nat) (w : World)
  : outcome unit * master_state * World :=
  let (_, w0) := print (MsgInitialized TARGET_ID BASE_URL target_count) w in
  match master_loop fuel (MasterState ∅ 0) w0 with
  | (Return _, st, w1) =>
      let (r, w2) := final_output (master_unique_followers st) w1 in
      (r, st, w2)
  | stopped => stopped
  end.

End Run.

Section Main.

(** Python's [int(s)] on a string: [None] when it raises [ValueError]. *)
Context (int : string → option Z).

Definition main (fuel pages_fuel : nat) (argv : list string) : M unit :=
  match argv with
  | [_; request_filepath; count] =>
      λ w,
        let output_filename := "followers_" +:+ timestamp w +:+ ".txt" in
        match int count with
        | Some target_count =>
            if target_count <=? 0 then
              (print MsgBadTargetCount ;; raise (SystemExit 1)) w
            else
              match load_request_data request_filepath w with
              | (Return (HEADERS, BASE_URL, TARGET_ID), w') =>
                  let '(r, _, w'') :=
                    collect pages_fuel HEADERS BASE_URL TARGET_ID
                            target_count output_filename fuel w' in
                  (r, w'')
              | (Raise e, w') => (Raise e, w')
              | (OutOfFuel, w') => (OutOfFuel, w')
              end
        | None => (print MsgBadTargetCount ;; raise (SystemExit 1)) w
        end
  | _ => print MsgUsage ;; raise (SystemExit 1)
  end.

End Main.

(** *** A simulated world *)

(** The response to a successful request for a page. *)
Definition ok_page (names : list string) (more : bool)
    (next : option string) : get_outcome :=
  Got {| status_code := 200;
         json := Json (PyDict
                   (Body (Some "ok")
                         (Some (UsersList ((λ s, Dict (Some (Str s))) <$> names)))
                         (Some more) next));
         text := EmptyString |}.

(** A world that has seen nothing yet, whose network gives the listed
    answers in order and then fails, and whose disk never does. *)
Definition simulated (answers : list get_outcome) : World :=
  {| network := λ n _ _, nth n answers RequestException;
     requested := []; random := λ n, n; draws := 0%nat; slept := [];
     files := ∅; write_faults := λ _, None; writes := 0%nat; stdout := [];
     timestamp := "20251109_120000" |}.

(** Two pages that share an identifier, a network failure, and a page
    that the cycle never gets to. *)
Definition example_feed : list get_outcome :=
  [ok_page ["a"; "b"] true (Some "c1"); ok_page ["b"; "c"] true (Some "c2");
   RequestException; ok_page ["d"] false None].

(** Five requests that fail, one per cycle, and then a page with one
    follower. *)
Definition five_failures_then_one : list get_outcome :=
  replicate 5 RequestException ++ [ok_page ["a"] false None].

(** *** Vocabulary of the disk *)

(** No write of this world will fail. *)
Definition disk_ok (w : World) : Prop := ∀ n, write_faults w n = None.

(** The file at [path] holds exactly the snapshot of [master]. *)
Definition saved (path : string) (master : gset string) (w : World) : Prop :=
  files w !! path = Some (Text (snapshot master)).

End FollowScraper.

(** ** The vocabulary of the properties *)

Module Spec.
Import Py FollowScraper.

(** The first and the last character of a string. *)
Definition first_char (s : string) : option ascii :=
  match s with
  | String c _ => Some c
  | EmptyString => None
  end.

Fixpoint last_char (s : string) : option ascii :=
  match s with
  | EmptyString => None
  | String c EmptyString => Some c
  | String _ s' => last_char s'
  end.

(** No whitespace at either end. *)
Definition trimmed (s : string) : Prop :=
  (∀ c, first_char s = Some c → isspace c = false) ∧
  (∀ c, last_char s = Some c → isspace c = false).

(** No character that ends a line when a text file is read. *)
Definition one_line (s : string) : Prop :=
  all_chars (λ c, negb (Ascii.eqb c LF || Ascii.eqb c CR)) s = true.

(** An identifier that a snapshot file can carry: not empty, on one
    line, and without whitespace at its ends. *)
Definition storable (x : string) : Prop :=
  x ≠ EmptyString ∧ trimmed x ∧ one_line x.

(** A status code of the client or server errors, 400 to 599. *)
Definition http_error (code : Z) : Prop := 400 ≤ code < 600.

#[global] Instance http_error_dec code : Decision (http_error code).
Proof. unfold http_error. apply _. Defined.

(** The successful page that an answer of the network carries, if any:
    a response whose status code is none of 400 to 599 and whose body
    decodes to an object with the status "ok". *)
Definition as_page (g : get_outcome) : option body :=
  match g with
  | RequestException => None
  | Got r =>
      if decide (http_error (status_code r)) then None
      else match json r with
           | Json (PyDict d) =>
               if decide (status d = Some "ok") then Some d else None
           | _ => None
           end
  end.

(** The identifier that a user carries: the string under its
    ['username']. *)
Definition identifier_of (u : user) : option string :=
  match u with
  | Dict (Some (Str s)) => Some s
  | _ => None
  end.

(** The users that a page lists. *)
Definition listed (d : body) : list user :=
  match users d with
  | Some (UsersList l) => l
  | _ => []
  end.

(** The identifiers of a page. *)
Definition identifiers (d : body) : list string :=
  omap identifier_of (listed d).

Definition page_set (d : body) : gset string := list_to_set (identifiers d).

(** The users of a page have the expected shape: the key is absent or
    holds a list, of objects that each carry a string under
    ['username']. *)
Definition users_in_shape (d : body) : Prop :=
  users d ≠ Some UsersOther ∧
  Forall (λ u, is_Some (identifier_of u)) (listed d).

(** An answer is well formed when its body, if it decodes, is [null] or
    an object, and the users of a successful page have the expected
    shape. *)
Definition well_formed (g : get_outcome) : Prop :=
  match g with
  | RequestException => True
  | Got r =>
      ¬ http_error (status_code r) →
      match json r with
      | Json PyOther => False
      | Json (PyDict d) => status d = Some "ok" → users_in_shape d
      | _ => True
      end
  end.

(** The pages of a sequence of answers that a cycle processes: those
    before the first answer that is not a successful page, and none
    after the first page that does not announce more. *)
Fixpoint processed (l : list get_outcome) : list body :=
  match l with
  | [] => []
  | g :: l' =>
      match as_page g with
      | Some d =>
          d :: match has_more d with
               | Some true => processed l'
               | _ => []
               end
      | None => []
      end
  end.


(** What one turn of a cycle leaves untouched, and the one request, for
    [url], that it adds. *)
Definition turn (url : string) (w w' : World) : Prop :=
  network w' = network w ∧
  requested w' = url :: requested w ∧
  files w' = files w ∧ write_faults w' = write_faults w ∧
  writes w' = writes w ∧ timestamp w' = timestamp w.

(** The state a turn hands over. *)
Definition handed (c : control master_state) : master_state :=
  match c with Continue st | Break st => st end.

(** The text that holds the given lines, with a line feed between two
    and none after the last. *)
Fixpoint one_per_line (lines : list string) : string :=
  match lines with
  | [] => EmptyString
  | x :: rest =>
      match rest with
      | [] => x
      | _ :: _ => x +:+ String LF (one_per_line rest)
      end
  end.

(** The file at [path] lists [master]: its text holds the identifiers
    of [master], each once, in ascending order, one per line. *)
Definition lists (path : string) (master : gset string) (w : World) : Prop :=
  ∃ lines,
    files w !! path = Some (Text (one_per_line lines)) ∧
    Sorted String.le lines ∧ NoDup lines ∧ ∀ x, x ∈ lines ↔ x ∈ master.

End Spec.

(** ** More vocabulary: the request file, the requests of a cycle *)

Module Coverage.
Import Py FollowScraper Spec.

(** A header that [parse_headers] may keep: name and value without
    whitespace at their ends, and a name that is none of the skipped
    ones in any letter case. *)
Definition kept_header (name value : string) : Prop :=
  trimmed name ∧ trimmed value ∧ lower name ∉ HEADERS_TO_SKIP.


(** An element of [users] in which [user['username']] finds a value:
    an object that has the key. *)
Definition keyed (u : user) : Prop := ∃ n, u = Dict (Some n).

(** Two worlds with the same network, the same requests behind them and
    the same random source: they may differ by their disks and by what
    was printed. *)
Definition same_outside (w1 w2 : World) : Prop :=
  network w1 = network w2 ∧ requested w1 = requested w2 ∧
  random w1 = random w2 ∧ draws w1 = draws w2.

(** The simulated world with a disk on which every write fails and
    leaves no file. *)
Definition simulated_broken_disk (answers : list get_outcome) : World :=
  {| network := network (simulated answers);
     requested := []; random := random (simulated answers);
     draws := 0%nat; slept := []; files := ∅;
     write_faults := λ _, Some None; writes := 0%nat; stdout := [];
     timestamp := timestamp (simulated answers) |}.

(** A run for one follower, with ten cycles and ten pages at most, on
    the simulated network of five failures and then a page, and a disk
    on which every write fails. *)
Definition run_on_broken_disk : outcome unit * master_state * World :=
  collect 10 ∅ "B" "1" 1 "followers.txt" 10
          (simulated_broken_disk five_failures_then_one).

(** A body that decodes to a JSON list. *)
Definition list_body : get_outcome :=
  Got {| status_code := 200; json := Json PyOther;
         text := "[]" |}.

(** One page with one follower, then a body that is a list. *)
Definition crash_feed : list get_outcome :=
  [ok_page ["a"] false None; list_body].


(** A page with the status "ok" and the given value under ['users']. *)
Definition page_with (users : users_value) : get_outcome :=
  Got {| status_code := 200;
         json := Json (PyDict (Body (Some "ok") (Some users) (Some false)
                                    None));
         text := EmptyString |}.





(** The snapshot as it reaches the disk where the line separator of the
    platform is [\r\n]: writing in text mode turns each [\n] into
    it. *)
Definition crlf : string := String CR (String LF EmptyString).

Definition snapshot_crlf (master : gset string) : string :=
  join crlf (sorted (elements master)).

(** A request file as a browser exports it. *)
Definition example_request : string :=
  "GET /api/v1/friendships/123456789/followers/?count=12 HTTP/1.1"
    +:+ newline +:+
  "Host: www.instagram.com" +:+ newline +:+
  "Cookie: sessionid=abc; csrftoken=xyz" +:+ newline +:+
  "X-IG-WWW-Claim:  hmac.AR1  " +:+ newline +:+
  "Accept-Encoding: gzip" +:+ newline +:+
  newline +:+
  "Ignored: after the blank line" +:+ newline.

End Coverage.

(** * Properties *)

(** ** Strings: stripping and line reading *)

Module PyFacts.
Import Py Spec.

Lemma lstrip_first s c : first_char (lstrip s) = Some c → isspace c = false.
Proof.
  induction s as [|a s IH]; simpl; [done|].
  destruct (isspace a) eqn:Ha; [done|].
  simpl. intros [= <-]. done.
Qed.

Lemma rstrip_cons c s :
  rstrip (String c s) =
    match rstrip s with
    | EmptyString => if isspace c then EmptyString else String c EmptyString
    | r => String c r
    end.
Proof. done. Qed.

Lemma rstrip_last s c : last_char (rstrip s) = Some c → isspace c = false.
Proof.
  induction s as [|a s IH]; [done|].
  rewrite rstrip_cons. destruct (rstrip s) as [|b r] eqn:Hr.
  - destruct (isspace a) eqn:Ha; simpl; [done|]. by intros [= <-].
  - simpl. exact IH.
Qed.

Lemma rstrip_first s c :
  first_char s = Some c → isspace c = false → first_char (rstrip s) = Some c.
Proof.
  destruct s as [|a s]; [done|]. intros [= ->] Hc.
  rewrite rstrip_cons. destruct (rstrip s); [by rewrite Hc|done].
Qed.

Lemma rstrip_empty_first s :
  first_char (rstrip s) = None → rstrip s = EmptyString.
Proof. by destruct (rstrip s). Qed.

(** A stripped string has no whitespace at its ends. *)
Lemma strip_trimmed s : trimmed (strip s).
Proof.
  split; intros c Hc.
  - unfold strip in Hc.
    destruct (first_char (lstrip s)) as [a|] eqn:Ha.
    + pose proof (lstrip_first _ _ Ha) as Hsp.
      rewrite (rstrip_first _ _ Ha Hsp) in Hc. by injection Hc as <-.
    + destruct (lstrip s); [done|discriminate].
  - by apply (rstrip_last (lstrip s)).
Qed.

Lemma lstrip_id s :
  (∀ c, first_char s = Some c → isspace c = false) → lstrip s = s.
Proof.
  destruct s as [|a s]; [done|]. intros H. simpl. by rewrite (H a).
Qed.

Lemma rstrip_id s :
  (∀ c, last_char s = Some c → isspace c = false) → rstrip s = s.
Proof.
  induction s as [|a s IH]; [done|]. intros H.
  rewrite rstrip_cons. destruct s as [|b s].
  - simpl. by rewrite (H a).
  - rewrite IH; [done|]. intros c Hc. by apply H.
Qed.

(** Stripping leaves a string alone exactly when its ends are clean. *)
Lemma strip_id s : trimmed s → strip s = s.
Proof.
  intros [Hf Hl]. unfold strip. rewrite (lstrip_id s Hf). by apply rstrip_id.
Qed.

Lemma strip_fixpoint s : strip s = s ↔ trimmed s.
Proof.
  split; [|apply strip_id]. intros <-. apply strip_trimmed.
Qed.

Lemma truthy_true s : truthy s = true ↔ s ≠ EmptyString.
Proof. by destruct s. Qed.

(** Trailing whitespace, and the line terminator in particular, is
    invisible to [rstrip]. *)
Lemma rstrip_app_newline s : rstrip (s +:+ newline) = rstrip s.
Proof.
  induction s as [|a s IH]; [done|].
  change (String a s +:+ newline) with (String a (s +:+ newline)).
  by rewrite !rstrip_cons, IH.
Qed.

Lemma strip_app_newline s :
  s ≠ EmptyString → trimmed s → strip (s +:+ newline) = s.
Proof.
  intros Hne Ht. destruct s as [|a s]; [done|].
  pose proof (strip_id _ Ht) as Hid. unfold strip in *.
  destruct Ht as [Hf _]. specialize (Hf a eq_refl).
  change (String a s +:+ newline) with (String a (s +:+ newline)).
  simpl lstrip in *. rewrite Hf in *.
  change (String a (s +:+ newline)) with (String a s +:+ newline).
  by rewrite rstrip_app_newline.
Qed.

(** A text without carriage returns is read as it is. *)
Lemma universal_newlines_id s :
  all_chars (λ c, negb (Ascii.eqb c CR)) s = true → universal_newlines s = s.
Proof.
  induction s as [|a s IH]; [done|]. simpl.
  intros [Ha Hs]%andb_true_iff. apply negb_true_iff in Ha. rewrite Ha.
  by rewrite IH.
Qed.

Lemma all_chars_app p s t :
  all_chars p (s +:+ t) = all_chars p s && all_chars p t.
Proof.
  induction s as [|a s IH]; [done|].
  change (String a s +:+ t) with (String a (s +:+ t)). simpl.
  by rewrite IH, andb_assoc.
Qed.

Lemma all_chars_weaken (p q : ascii → bool) s :
  (∀ c, p c = true → q c = true) →
  all_chars p s = true → all_chars q s = true.
Proof.
  intros Hpq. induction s as [|a s IH]; [done|]. simpl.
  intros [Ha Hs]%andb_true_iff. by rewrite (Hpq _ Ha), IH.
Qed.

(** Line cutting on a text made of a line, its terminator and more. *)
Lemma split_keepends_line s rest :
  all_chars (λ c, negb (Ascii.eqb c LF)) s = true →
  split_keepends (s +:+ String LF rest) =
    (s +:+ newline) :: split_keepends rest.
Proof.
  induction s as [|a s IH]; [done|]. simpl.
  intros [Ha Hs]%andb_true_iff. apply negb_true_iff in Ha.
  change (String a s +:+ String LF rest) with (String a (s +:+ String LF rest)).
  simpl. rewrite Ha, (IH Hs). done.
Qed.

Lemma split_keepends_last s :
  s ≠ EmptyString →
  all_chars (λ c, negb (Ascii.eqb c LF)) s = true →
  split_keepends s = [s].
Proof.
  induction s as [|a s IH]; [done|]. intros _. simpl.
  intros [Ha Hs]%andb_true_iff. apply negb_true_iff in Ha. rewrite Ha.
  destruct s as [|b s]; [done|]. by rewrite IH.
Qed.

Lemma all_chars_lstrip p s : all_chars p s = true → all_chars p (lstrip s) = true.
Proof.
  induction s as [|a s IH]; [done|]. simpl.
  intros [Ha Hs]%andb_true_iff. destruct (isspace a); [by apply IH|].
  simpl. by rewrite Ha, Hs.
Qed.

Lemma all_chars_rstrip p s : all_chars p s = true → all_chars p (rstrip s) = true.
Proof.
  induction s as [|a s IH]; [done|]. rewrite rstrip_cons. simpl.
  intros [Ha Hs]%andb_true_iff. specialize (IH Hs).
  destruct (rstrip s) as [|b r].
  - destruct (isspace a); [done|]. simpl. by rewrite Ha.
  - change (all_chars p (String a (String b r)))
      with (p a && all_chars p (String b r)). by rewrite Ha, IH.
Qed.

Lemma all_chars_strip p s : all_chars p s = true → all_chars p (strip s) = true.
Proof. intros H. by apply all_chars_rstrip, all_chars_lstrip. Qed.

(** The terminator of a line does not show in the stripped line. *)
Lemma lstrip_app_newline s :
  lstrip (s +:+ newline) = lstrip s +:+ newline ∨
  (lstrip s = EmptyString ∧ lstrip (s +:+ newline) = EmptyString).
Proof.
  induction s as [|a s IH]; [by right|].
  change (String a s +:+ newline) with (String a (s +:+ newline)). simpl.
  destruct (isspace a); [exact IH|by left].
Qed.

Lemma strip_line s : strip (s +:+ newline) = strip s.
Proof.
  unfold strip. destruct (lstrip_app_newline s) as [->|[-> ->]]; [|done].
  apply rstrip_app_newline.
Qed.

(** What is read has no carriage return left. *)
Lemma universal_newlines_no_cr s :
  all_chars (λ c, negb (Ascii.eqb c CR)) (universal_newlines s) = true.
Proof.
  remember (String.length s) as n eqn:Hn. revert s Hn.
  induction n as [n IH] using lt_wf_ind. intros [|a s] Hn; [done|].
  cbn [universal_newlines String.length] in *.
  destruct (Ascii.eqb a CR) eqn:Ha; cbn [all_chars].
  - apply andb_true_iff. split; [done|].
    destruct s as [|b s]; [done|]. cbn [String.length] in Hn.
    destruct (Ascii.eqb b LF).
    + apply (IH (String.length s)); [lia|done].
    + apply (IH (S (String.length s))); [lia|done].
  - apply andb_true_iff. split; [by rewrite Ha|].
    apply (IH (String.length s)); [lia|done].
Qed.

(** A line of a text without carriage return is a text on one line,
    with or without a terminator. *)
Lemma split_keepends_lines s :
  all_chars (λ c, negb (Ascii.eqb c CR)) s = true →
  Forall (λ line, ∃ b, one_line b ∧ (line = b ∨ line = b +:+ newline))
         (split_keepends s).
Proof.
  induction s as [|a s IH]; [constructor|]. simpl.
  intros [Ha Hs]%andb_true_iff. specialize (IH Hs).
  apply negb_true_iff in Ha.
  destruct (Ascii.eqb a LF) eqn:Hlf.
  - constructor; [|done]. exists EmptyString. split; [done|by right].
  - assert (one_line (String a EmptyString)) as Hone.
    { unfold one_line. simpl. by rewrite Hlf, Ha. }
    destruct (split_keepends s) as [|l ls]; constructor; try constructor.
    + exists (String a EmptyString). split; [done|by left].
    + apply Forall_cons in IH as [(b & Hb & Hl) _].
      exists (String a b). split.
      * unfold one_line in *. simpl. by rewrite Hlf, Ha, Hb.
      * destruct Hl as [->| ->]; [by left|by right].
    + by apply Forall_cons in IH as [_ ?].
Qed.

Lemma readlines_strip_one_line content line :
  line ∈ readlines content → one_line (strip line).
Proof.
  intros Hin. unfold readlines in Hin.
  pose proof (split_keepends_lines _ (universal_newlines_no_cr content)) as Hl.
  rewrite Forall_forall in Hl. destruct (Hl _ Hin) as (b & Hb & [->| ->]).
  - by apply all_chars_strip.
  - rewrite strip_line. by apply all_chars_strip.
Qed.

End PyFacts.

(** ** The snapshot diff *)

Module DiffFacts.
Import Py Spec PyFacts Diff.

Lemma elem_of_usernames_of content x :
  x ∈ usernames_of content ↔
  x ≠ EmptyString ∧ ∃ line, line ∈ readlines content ∧ x = strip line.
Proof.
  unfold usernames_of. rewrite elem_of_list_to_set, list_elem_of_fmap.
  split.
  - intros (line & -> & [Ht Hin]%list_elem_of_filter).
    split; [by apply truthy_true|eauto].
  - intros (Hne & line & Hin & ->). exists line. split; [done|].
    apply list_elem_of_filter. split; [by apply truthy_true|done].
Qed.

(** Whatever is loaded can be stored: not empty, clean at its ends, on
    one line. *)
Lemma usernames_of_storable content x : x ∈ usernames_of content → storable x.
Proof.
  intros (Hne & line & Hin & ->)%elem_of_usernames_of.
  split; [done|]. split; [apply strip_trimmed|].
  by eapply readlines_strip_one_line.
Qed.

(** C9. Whatever the file holds, the set that [load_usernames] returns
    is made of the stripped lines of the file that are not blank: it
    has no empty string and no member with whitespace at either end, so
    an identifier written with surrounding whitespace is loaded without
    it. *)
Theorem load_usernames_strips (fs : disk) (filepath : string)
    (loaded : gset string) :
  load_usernames fs filepath = Some loaded →
  ∃ content,
    fs !! filepath = Some (Text content) ∧
    (∀ x, x ∈ loaded ↔
          (x ≠ EmptyString ∧
           ∃ line, line ∈ readlines content ∧ x = strip line)) ∧
    (EmptyString ∉ loaded) ∧
    (∀ x, x ∈ loaded → trimmed x ∧ strip x = x).
Proof.
  unfold load_usernames. intros Hload.
  destruct (fs !! filepath) as [[content|]|] eqn:Hfile; simplify_eq.
  exists content. split; [done|]. split; [apply elem_of_usernames_of|].
  split.
  - rewrite elem_of_usernames_of. by intros [? _].
  - intros x (_ & line & _ & ->)%elem_of_usernames_of.
    split; [apply strip_trimmed|]. apply strip_id, strip_trimmed.
Qed.

Lemma load_usernames_strips_witness :
  ∃ content,
    ({[ "old.txt" := Text (" alice " +:+ newline +:+ newline +:+ "bob") ]}
       : disk) !! "old.txt" = Some (Text content) ∧
    (∀ x, x ∈ ({[ "alice"; "bob" ]} : gset string) ↔
          (x ≠ EmptyString ∧
           ∃ line, line ∈ readlines content ∧ x = strip line)) ∧
    (EmptyString ∉ ({[ "alice"; "bob" ]} : gset string)) ∧
    (∀ x, x ∈ ({[ "alice"; "bob" ]} : gset string) → trimmed x ∧ strip x = x).
Proof.
  apply (load_usernames_strips
           {[ "old.txt" := Text (" alice " +:+ newline +:+ newline +:+ "bob") ]}
           "old.txt").
  vm_compute. reflexivity.
Defined.

(** C5. The set arithmetic of the diff: what is lost is what the old
    set has and the new one lacks, what is gained is the converse, the
    net change is the difference of the two sizes, and the two sets
    that were loaded are still bound to the same values afterwards. *)
Theorem set_arithmetic_spec (old new : gset string) :
  let l := set_arithmetic old new in
  lost_followers l = old ∖ new ∧
  new_followers l = new ∖ old ∧
  net_change l = Z.of_nat (size new) - Z.of_nat (size old) ∧
  (∀ x, x ∈ lost_followers l ↔ x ∈ old ∧ x ∉ new) ∧
  (∀ x, x ∈ new_followers l ↔ x ∈ new ∧ x ∉ old) ∧
  followers_old l = old ∧ followers_new l = new.
Proof.
  simpl. split_and!; try done; intros x; apply elem_of_difference.
Qed.

(** X15. The diff read in both directions, and the sets put back
    together: what one direction loses the other gains, and each
    snapshot is what the two share with what it alone has. *)
Lemma set_arithmetic_antisymmetric_complete (A B : gset string) :
  lost_followers (set_arithmetic A B) = new_followers (set_arithmetic B A) ∧
  new_followers (set_arithmetic A B) = lost_followers (set_arithmetic B A) ∧
  A = (A ∩ B) ∪ lost_followers (set_arithmetic A B) ∧
  B = (A ∩ B) ∪ new_followers (set_arithmetic A B).
Proof.
  simpl. split_and!; try done; apply set_eq; intros x;
    rewrite elem_of_union, elem_of_intersection, elem_of_difference;
    destruct (decide (x ∈ A)), (decide (x ∈ B)); tauto.
Qed.

Lemma size_split (A B : gset string) :
  size A = (size (A ∖ B) + size (A ∩ B))%nat.
Proof.
  rewrite <-size_union.
  - f_equal. apply set_eq. intros x.
    rewrite elem_of_union, elem_of_intersection, elem_of_difference.
    destruct (decide (x ∈ B)); tauto.
  - intros x. rewrite elem_of_intersection, elem_of_difference. tauto.
Qed.

(** X16. The net change that the report shows is the count of the
    followers gained less the count of those lost. *)
Lemma net_change_gained_less_lost (old new : gset string) :
  let l := set_arithmetic old new in
  net_change l = Py.len (new_followers l) - Py.len (lost_followers l).
Proof.
  simpl. unfold Py.len.
  rewrite (size_split old new), (size_split new old).
  assert (new ∩ old = old ∩ new) as -> by apply (comm_L (∩)).
  lia.
Qed.

(** The two scenarios of the design: a follower lost and one gained,
    and a first snapshot compared with an empty one. *)
Example set_arithmetic_alice_dave :
  let l := set_arithmetic {[ "alice"; "bob"; "carol" ]}
                          {[ "bob"; "carol"; "dave" ]} in
  lost_followers l = {[ "alice" ]} ∧ new_followers l = {[ "dave" ]} ∧
  net_change l = 0.
Proof. vm_compute. done. Qed.

Example set_arithmetic_from_empty :
  let l := set_arithmetic ∅ {[ "x" ]} in
  lost_followers l = ∅ ∧ new_followers l = {[ "x" ]} ∧ net_change l = 1 ∧
  lost_section l = ["N/A - No followers were lost."].
Proof. vm_compute. done. Qed.

(** [main] reaches the set arithmetic with the two loaded sets. *)
Lemma main_returns (prog file_old file_new : string) (fs : disk)
    (old new : gset string) :
  load_usernames fs file_old = Some old →
  load_usernames fs file_new = Some new →
  main [prog; file_old; file_new] fs = Returned (set_arithmetic old new).
Proof. intros Ho Hn. simpl. by rewrite Ho, Hn. Qed.

End DiffFacts.

(** ** The snapshot file: writing and reading back *)

Module SnapshotFacts.
Import Py Spec PyFacts.

Lemma app_newline_cons s rest : s +:+ newline +:+ rest = s +:+ String LF rest.
Proof. done. Qed.

Lemma join_cons sep x y l :
  join sep (x :: y :: l) = x +:+ sep +:+ join sep (y :: l).
Proof. done. Qed.

Lemma join_no_cr (l : list string) :
  Forall one_line l →
  all_chars (λ c, negb (Ascii.eqb c CR)) (join newline l) = true.
Proof.
  induction 1 as [|x l Hx Hl IH]; [done|].
  assert (all_chars (λ c, negb (Ascii.eqb c CR)) x = true) as Hx'.
  { revert Hx. apply all_chars_weaken. intros c.
    rewrite negb_orb. by intros [_ ?]%andb_true_iff. }
  destruct l as [|y l]; [done|].
  rewrite join_cons, !all_chars_app, Hx', IH. done.
Qed.

Lemma lines_of_join (l : list string) :
  Forall storable l →
  strip <$> filter (λ line, truthy (strip line) = true)
                   (split_keepends (join newline l)) = l.
Proof.
  induction 1 as [|x l (Hne & Ht & Hone) Hl IH]; [done|].
  assert (all_chars (λ c, negb (Ascii.eqb c LF)) x = true) as Hlf.
  { revert Hone. apply all_chars_weaken. intros c.
    rewrite negb_orb. by intros [? _]%andb_true_iff. }
  destruct l as [|y l].
  - simpl join. rewrite (split_keepends_last _ Hne Hlf).
    rewrite filter_cons_True by (rewrite (strip_id _ Ht); by apply truthy_true).
    simpl. by rewrite (strip_id _ Ht).
  - rewrite join_cons, app_newline_cons, (split_keepends_line _ _ Hlf).
    rewrite filter_cons_True
      by (rewrite (strip_app_newline _ Hne Ht); by apply truthy_true).
    rewrite fmap_cons, IH, (strip_app_newline _ Hne Ht). done.
Qed.

Lemma usernames_of_snapshot (master : gset string) :
  (∀ x, x ∈ master → storable x) →
  Diff.usernames_of (FollowScraper.snapshot master) = master.
Proof.
  intros Hall. unfold Diff.usernames_of, FollowScraper.snapshot, readlines.
  assert (Forall storable (sorted (elements master))) as Hs.
  { rewrite Forall_forall. intros x Hx. apply Hall.
    unfold sorted in Hx. rewrite merge_sort_Permutation in Hx.
    by apply elem_of_elements. }
  rewrite universal_newlines_id.
  - rewrite (lines_of_join _ Hs). unfold sorted.
    rewrite (list_to_set_perm_L _ _ (merge_sort_Permutation _ _)).
    apply list_to_set_elements_L.
  - apply join_no_cr. eapply Forall_impl; [exact Hs|]. by intros x (_ & _ & ?).
Qed.

(** The snapshot holds the identifiers of the master set, each once,
    in ascending order, one per line. *)
Lemma join_one_per_line (l : list string) : join newline l = one_per_line l.
Proof.
  induction l as [|x [|y l] IH]; [done..|].
  rewrite join_cons, IH. done.
Qed.

Lemma snapshot_lines (master : gset string) :
  ∃ lines,
    FollowScraper.snapshot master = one_per_line lines ∧
    Sorted String.le lines ∧ NoDup lines ∧ ∀ x, x ∈ lines ↔ x ∈ master.
Proof.
  exists (sorted (elements master)). unfold FollowScraper.snapshot, sorted.
  split_and!.
  - apply join_one_per_line.
  - apply Sorted_merge_sort. apply _.
  - rewrite merge_sort_Permutation. apply NoDup_elements.
  - intros x. rewrite merge_sort_Permutation. apply elem_of_elements.
Qed.

Lemma not_storable_padded : ¬ storable " bob".
Proof. intros (_ & [Hfirst _] & _). by specialize (Hfirst " "%char eq_refl). Qed.

(** C6, as it holds. A master set whose identifiers are not empty, have
    no whitespace at their ends and hold no line break is read back
    from its snapshot by the loader of the diff as the same set, and no
    other master set is; the snapshot does not depend on the order in
    which the identifiers were inserted. *)
Theorem snapshot_round_trip (master : gset string) (output_filename : string)
    (w : FollowScraper.World) :
  FollowScraper.write_faults w (FollowScraper.writes w) = None →
  (Diff.load_usernames
     (FollowScraper.files
        (FollowScraper.final_output output_filename master w).2)
     output_filename = Some master
   ↔ ∀ x, x ∈ master → storable x) ∧
  (Diff.usernames_of (FollowScraper.snapshot master) = master
   ↔ ∀ x, x ∈ master → storable x) ∧
  ∀ inserted reordered : list string,
    list_to_set inserted = master → reordered ≡ₚ inserted →
    FollowScraper.snapshot (list_to_set reordered)
    = FollowScraper.snapshot master.
Proof.
  intros Hwrite.
  assert (Diff.usernames_of (FollowScraper.snapshot master) = master
          ↔ ∀ x, x ∈ master → storable x) as Hback.
  { split; [|apply usernames_of_snapshot].
    intros Heq x Hx. rewrite <-Heq in Hx.
    by eapply DiffFacts.usernames_of_storable. }
  assert (Diff.load_usernames
            (FollowScraper.files
               (FollowScraper.final_output output_filename master w).2)
            output_filename
          = Some (Diff.usernames_of (FollowScraper.snapshot master))) as ->.
  { unfold FollowScraper.final_output, FollowScraper.write_file,
      FollowScraper.bind, FollowScraper.print, Diff.load_usernames.
    simpl. rewrite Hwrite. simpl. by rewrite lookup_insert_eq. }
  split_and!; [|done|].
  - rewrite <-Hback. split; [by intros [= ->]|by intros ->].
  - intros inserted reordered <- Hperm.
    by rewrite (list_to_set_perm_L (C:=gset string) _ _ Hperm).
Qed.

Lemma snapshot_round_trip_witness :
  FollowScraper.write_faults (FollowScraper.simulated []) 0%nat = None ∧
  (Diff.usernames_of (FollowScraper.snapshot {[ "carol"; "alice"; "bob" ]})
   = {[ "carol"; "alice"; "bob" ]}
   ↔ ∀ x, x ∈ ({[ "carol"; "alice"; "bob" ]} : gset string) → storable x).
Proof.
  split; [reflexivity|].
  exact (proj1 (proj2 (snapshot_round_trip {[ "carol"; "alice"; "bob" ]}
                         "followers.txt" (FollowScraper.simulated [])
                         eq_refl))).
Defined.

(** C6, as stated, fails: an identifier with a leading space comes back
    without it, so the set read is not the set written. *)
Lemma padded_identifier_not_read_back :
  Diff.usernames_of (FollowScraper.snapshot {[ " bob" ]}) = {[ "bob" ]} ∧
  Diff.usernames_of (FollowScraper.snapshot {[ " bob" ]}) ≠ {[ " bob" ]}.
Proof.
  assert (Diff.usernames_of (FollowScraper.snapshot {[ " bob" ]})
          = {[ "bob" ]}) as Hread by (vm_compute; reflexivity).
  split; [exact Hread|]. rewrite Hread.
  intros Heq. assert (" bob" ∈ ({[ "bob" ]} : gset string)) as Hin
    by (rewrite Heq; by apply elem_of_singleton).
  by apply elem_of_singleton in Hin.
Qed.

(** The empty identifier and one that holds a line break are lost in
    the same way. *)
Example empty_and_broken_identifiers_lost :
  Diff.usernames_of (FollowScraper.snapshot {[ EmptyString ]}) = ∅ ∧
  Diff.usernames_of (FollowScraper.snapshot {[ "a" +:+ newline +:+ "b" ]})
  = {[ "a"; "b" ]}.
Proof. vm_compute. done. Qed.

End SnapshotFacts.

(** ** The cycle runner *)

Module CycleFacts.
Import FollowScraper Spec Coverage.

(** [raise_for_status] raises for the status codes 400 to 599, and for
    those only. *)
Lemma raise_for_status_http_error (response : Response) :
  raise_for_status response = bool_decide (http_error (status_code response)).
Proof.
  unfold raise_for_status, http_error.
  case_bool_decide as H.
  - apply andb_true_iff. split; [apply Z.leb_le|apply Z.ltb_lt]; lia.
  - apply andb_false_iff.
    destruct (Z.leb_spec 400 (status_code response)); [right|by left].
    apply Z.ltb_ge. lia.
Qed.

(** Users of the expected shape give their identifiers, and no
    exception. *)
Lemma usernames_in_shape (us : list user) :
  Forall (λ u, is_Some (identifier_of u)) us →
  ∃ names, usernames_in us = Return names ∧
           strings_in names = Return (omap identifier_of us).
Proof.
  induction 1 as [|u us [x Hx] _ (names & IHn & IHs)]; [by exists []|].
  destruct u as [[[s|]|]|]; simplify_eq/=.
  exists (Str x :: names). simpl. rewrite IHn. simpl. by rewrite IHs.
Qed.

Lemma iterate_in_shape (d : body) :
  users d ≠ Some UsersOther →
  iterate (default (UsersList []) (users d)) = Return (listed d).
Proof. unfold listed. by destruct (users d) as [[l|]|]. Qed.

(** The comprehension raises [KeyError] or [TypeError] and nothing
    else; the check of the names raises [TypeError] only. *)
Lemma usernames_in_raises (us : list user) e :
  usernames_in us = Raise e → e = KeyError "username" ∨ e = TypeError.
Proof.
  induction us as [|[[n|]|] us IH]; simpl; try done.
  - destruct (usernames_in us); naive_solver.
  - intros [= <-]. by left.
  - intros [= <-]. by right.
Qed.

Lemma strings_in_raises (names : list name) e :
  strings_in names = Raise e → e = TypeError.
Proof.
  induction names as [|[s|] names IH]; simpl; try done.
  - destruct (strings_in names); naive_solver.
  - by intros [= <-].
Qed.



Section Cycle.

Context (base_url target_id : string) (headers : gmap string string).

Abbreviation body_of st w := (cycle_body base_url target_id headers st w).
Abbreviation answer st w :=
  (network w (length (requested w)) (page_url base_url (cursor st)) headers).

Ltac run_body :=
  unfold cycle_body, fetch_followers, bind, requests_get, print, ret, raise,
    lift, randint, sleep; simpl.

Lemma cycle_body_turn st w r w' : body_of st w = (r, w') → turn (page_url base_url (cursor st)) w w'.
Proof.
  run_body. destruct (answer st w) as [|resp]; simpl.
  { intros [= <- <-]. by repeat split. }
  destruct (raise_for_status resp); simpl.
  { intros [= <- <-]. by repeat split. }
  destruct (json resp) as [|[|d|]]; simpl;
    try (intros [= <- <-]; by repeat split).
  destruct (decide (status d = Some "ok")); simpl;
    [|intros [= <- <-]; by repeat split].
  destruct (iterate (default (UsersList []) (users d))) as [us| |]; simpl;
    try (intros [= <- <-]; by repeat split).
  destruct (usernames_in us) as [names| |]; simpl;
    try (intros [= <- <-]; by repeat split).
  destruct (strings_in names) as [usernames| |]; simpl;
    try (intros [= <- <-]; by repeat split).
  destruct (more d); simpl; intros [= <- <-]; by repeat split.
Qed.


(** A turn on a successful page adds its identifiers and counts it; it
    goes on, with the cursor of the page, exactly when the page
    announces more. *)
Lemma cycle_body_success st w d :
  as_page (answer st w) = Some d → well_formed (answer st w) →
  let st' next :=
    CycleState (cycle_followers st ∪ page_set d) next (pages_fetched st + 1) in
  ∃ w', body_of st w =
          (Return (match has_more d with
                   | Some true => Continue (st' (next_max_id d))
                   | _ => Break (st' (cursor st))
                   end), w').
Proof.
  unfold as_page, well_formed. run_body.
  destruct (answer st w) as [|resp]; simpl; [done|].
  rewrite raise_for_status_http_error.
  destruct (decide (http_error (status_code resp))) as [Herr|Herr]; [done|].
  rewrite bool_decide_eq_false_2 by done. simpl.
  destruct (json resp) as [|[|d'|]]; simpl; try done.
  destruct (decide (status d' = Some "ok")) as [Hok|]; simpl; [|done].
  intros [= ->] Hwf. destruct (Hwf Herr Hok) as [Hlist Hshape].
  rewrite (iterate_in_shape _ Hlist). simpl.
  destruct (usernames_in_shape _ Hshape) as (names & -> & ->). simpl.
  unfold more, page_set, identifiers.
  destruct (has_more d) as [[|]|]; simpl; eauto.
Qed.





(** A cycle only adds requests, and leaves the network and the disk as
    they are. *)
Lemma cycle_loop_frame fuel : ∀ st w r w',
  cycle_loop fuel base_url target_id headers st w = (r, w') →
  network w' = network w ∧ (∃ new, requested w' = new ++ requested w) ∧
  files w' = files w ∧ write_faults w' = write_faults w ∧
  writes w' = writes w ∧ timestamp w' = timestamp w.
Proof.
  induction fuel as [|fuel IH]; intros st w r w'; simpl.
  { intros [= <- <-]. split_and!; try done. by exists []. }
  unfold bind. destruct (body_of st w) as [[[st1|st1]|e|] w1] eqn:Hbody;
    pose proof (cycle_body_turn _ _ _ _ Hbody) as (Hn & Hr & Hf & Hwf & Hw & Ht).
  - intros (Hn' & [new Hr'] & Hf' & Hwf' & Hw' & Ht')%IH.
    split_and!; try congruence.
    exists (new ++ [page_url base_url (cursor st)]).
    by rewrite Hr', Hr, <-app_assoc.
  - intros [= <- <-]. split_and!; try done. by exists [page_url base_url (cursor st)].
  - intros [= <- <-]. split_and!; try done. by exists [page_url base_url (cursor st)].
  - intros [= <- <-]. split_and!; try done. by exists [page_url base_url (cursor st)].
Qed.

Lemma scrape_single_cycle_frame fuel w r w' :
  scrape_single_cycle fuel base_url target_id headers w = (r, w') →
  network w' = network w ∧ (∃ new, requested w' = new ++ requested w) ∧
  files w' = files w ∧ write_faults w' = write_faults w ∧
  writes w' = writes w ∧ timestamp w' = timestamp w.
Proof.
  unfold scrape_single_cycle, bind, print, ret. simpl.
  match goal with
  | |- context [cycle_loop fuel base_url target_id headers ?st ?w0] =>
      destruct (cycle_loop fuel base_url target_id headers st w0)
        as [[st1|e|] w1] eqn:Hloop;
      apply cycle_loop_frame in Hloop; simpl in Hloop
  end; by intros [= <- <-].
Qed.

(** The only exceptions that leave a cycle are those of a body outside
    the expected shape; a cycle never exits the process. *)
Lemma cycle_body_raises st w e w' :
  body_of st w = (Raise e, w') →
  e = KeyError "username" ∨ e = AttributeError ∨ e = TypeError.
Proof.
  run_body. destruct (answer st w) as [|resp]; simpl; [done|].
  destruct (raise_for_status resp); simpl; [done|].
  destruct (json resp) as [|[|d|]]; simpl; try done.
  - destruct (decide (status d = Some "ok")); simpl; [|done].
    destruct (users d) as [[us|]|]; simpl.
    + destruct (usernames_in us) as [names|e1|] eqn:Hnames; simpl.
      * destruct (strings_in names) as [usernames|e2|] eqn:Hstrings; simpl.
        -- by destruct (more d).
        -- intros [= <- _]. apply strings_in_raises in Hstrings. auto.
        -- done.
      * intros [= <- _]. apply usernames_in_raises in Hnames. tauto.
      * done.
    + intros [= <- _]. auto.
    + by destruct (more d).
  - intros [= <- _]. auto.
Qed.

Lemma cycle_loop_raises fuel : ∀ st w e w',
  cycle_loop fuel base_url target_id headers st w = (Raise e, w') →
  e = KeyError "username" ∨ e = AttributeError ∨ e = TypeError.
Proof.
  induction fuel as [|fuel IH]; intros st w e w'; simpl; [done|].
  unfold bind. destruct (body_of st w) as [[[st1|st1]|e1|] w1] eqn:Hbody.
  - apply IH.
  - done.
  - intros [= <- <-]. by eapply cycle_body_raises.
  - done.
Qed.

Lemma scrape_single_cycle_raises fuel w e w' :
  scrape_single_cycle fuel base_url target_id headers w = (Raise e, w') →
  e = KeyError "username" ∨ e = AttributeError ∨ e = TypeError.
Proof.
  unfold scrape_single_cycle, bind, print, ret. simpl.
  match goal with
  | |- context [cycle_loop fuel base_url target_id headers ?st ?w0] =>
      destruct (cycle_loop fuel base_url target_id headers st w0)
        as [[st1|e1|] w1] eqn:Hloop
  end; try done.
  intros [= <- <-]. by eapply cycle_loop_raises.
Qed.



(** C10. A successful page that announces more but carries no cursor
    does not end the cycle: the loop goes on with no cursor, and the
    request that follows asks for the first page again, with an empty
    [max_id]. *)
Theorem missing_cursor_restarts (st : cycle_state) (w : World) (d : body)
    (fuel : nat) :
  as_page (answer st w) = Some d → well_formed (answer st w) →
  has_more d = Some true → next_max_id d = None →
  (∃ st' w',
     body_of st w = (Return (Continue st'), w') ∧ cursor st' = None ∧
     cycle_followers st' = cycle_followers st ∪ page_set d) ∧
  (∃ later,
     requested (snd (cycle_loop (S (S fuel)) base_url target_id headers st w))
     = later ++ page_url base_url None
             :: page_url base_url (cursor st) :: requested w) ∧
  page_url base_url None
  = base_url +:+ "?count=25&max_id=&search_surface=follow_list_page".
Proof.
  intros Hpage Hwf Hmore Hnext.
  destruct (cycle_body_success st w d Hpage Hwf) as [w' Hrun].
  rewrite Hmore, Hnext in Hrun.
  pose proof (cycle_body_turn _ _ _ _ Hrun) as (_ & Hreq & _).
  split_and!; [by eexists _, w'| |done].
  cbn [cycle_loop]. unfold bind at 1. rewrite Hrun.
  unfold bind at 1.
  match goal with
  | |- context [cycle_body base_url target_id headers ?st1 w'] =>
      destruct (cycle_body base_url target_id headers st1 w')
        as [[[st2|st2]|e|] w2] eqn:Hsecond;
      pose proof (cycle_body_turn _ _ _ _ Hsecond) as (_ & Hreq2 & _);
      simpl in Hreq2
  end.
  - destruct (cycle_loop fuel base_url target_id headers st2 w2)
      as [r w3] eqn:Hrest.
    apply cycle_loop_frame in Hrest as (_ & [new Hnew] & _).
    exists new. simpl. by rewrite Hnew, Hreq2, Hreq.
  - exists []. simpl. by rewrite Hreq2, Hreq.
  - exists []. simpl. by rewrite Hreq2, Hreq.
  - exists []. simpl. by rewrite Hreq2, Hreq.
Qed.


End Cycle.


Lemma well_formed_ok_page names more next :
  well_formed (ok_page names more next).
Proof.
  simpl. intros _ _. split; [done|].
  unfold listed. simpl. induction names; constructor; [by eexists|done].
Qed.


(** The same cycle, evaluated: the page fed after the failure is not
    asked for, and the duplicate is absorbed. *)
Example cycle_of_example_feed :
  let (r, w) := scrape_single_cycle 5 "B" "1" ∅ (simulated example_feed) in
  r = Return {[ "a"; "b"; "c" ]} ∧ length (requested w) = 3%nat ∧
  page_set <$> processed example_feed = [{[ "a"; "b" ]}; {[ "b"; "c" ]}].
Proof. vm_compute. done. Qed.


Lemma missing_cursor_restarts_witness :
  let page := Body (Some "ok") (Some (UsersList [Dict (Some (Str "a"))]))
                   (Some true) None in
  let w := simulated [ok_page ["a"] true None] in
  let st := CycleState ∅ None 0 in
  as_page (network w 0%nat (page_url "B" None) ∅) = Some page ∧
  has_more page = Some true ∧ next_max_id page = None ∧
  ∃ later,
    requested (snd (cycle_loop 2 "B" "1" ∅ st w))
    = later ++ [page_url "B" None; page_url "B" None].
Proof.
  intros page w st. split_and!; [reflexivity..|].
  exact (proj1 (proj2 (missing_cursor_restarts "B" "1" ∅ st w page 0
                         eq_refl (well_formed_ok_page ["a"] true None)
                         eq_refl eq_refl))).
Defined.



End CycleFacts.

(** ** The master accumulator *)

Module MasterFacts.
Import FollowScraper Spec Coverage CycleFacts.

Lemma len_zero (s : gset string) : Py.len s = 0 ↔ s = ∅.
Proof.
  unfold Py.len. rewrite <-(leibniz_equiv_iff s ∅), <-size_empty_iff. lia.
Qed.

Lemma len_update_le (master current : gset string) :
  Py.len master ≤ Py.len (update master current).
Proof.
  unfold Py.len, update. apply inj_le, subseteq_size, union_subseteq_l.
Qed.

Section Run.

Context (pages_fuel : nat).
Context (HEADERS : gmap string string) (BASE_URL TARGET_ID : string).
Context (target_count : Z) (output_filename : string).

Abbreviation cycle w :=
  (scrape_single_cycle pages_fuel BASE_URL TARGET_ID HEADERS w).
Abbreviation body st w :=
  (master_body pages_fuel HEADERS BASE_URL TARGET_ID target_count
               output_filename st w).
Abbreviation loop fuel st w :=
  (master_loop pages_fuel HEADERS BASE_URL TARGET_ID target_count
               output_filename fuel st w).

Ltac finish_turn :=
  let H := fresh "Hwrite" in
  simpl; case_bool_decide as H; simpl;
  [rewrite H; by split_and!|by split_and!].

(** One turn of the master loop, by what the cycle returned. *)
Lemma master_body_cases (st : master_state) (w : World) :
  let master := master_unique_followers st in
  let number := cycle_number st + 1 in
  ∃ w', snd (body st w) = w' ∧
  match cycle w with
  | (Return current, w1) =>
      let merged := update master current in
      if decide (current = ∅ ∧ 5 < number ∧ master = ∅) then
        fst (body st w) = Raise (SystemExit 1) ∧
        files w' = files w1 ∧ write_faults w' = write_faults w1 ∧
        writes w' = writes w1 ∧ requested w' = requested w1 ∧
        stdout w' = MsgAborting :: MsgSkipping :: stdout w1
      else if decide (target_count ≤ Py.len merged) then
        fst (body st w) = Return (Break (MasterState merged number)) ∧
        files w' = files w1 ∧ write_faults w' = write_faults w1 ∧
        writes w' = writes w1 ∧ requested w' = requested w1 ∧
        hd_error (stdout w') = Some MsgTargetReached
      else
        fst (body st w) = Return (Continue (MasterState merged number)) ∧
        write_faults w' = write_faults w1 ∧ writes w' = S (writes w1) ∧
        requested w' = requested w1 ∧
        (write_faults w1 (writes w1) = None →
         files w' = <[output_filename := Text (snapshot merged)]> (files w1))
  | (Raise e, w1) => fst (body st w) = Raise e ∧ w' = w1
  | (OutOfFuel, w1) => fst (body st w) = OutOfFuel ∧ w' = w1
  end.
Proof.
  intros master number. eexists; split; [done|].
  unfold master_body, bind. destruct (cycle w) as [[current|e|] w1]; [|done..].
  destruct (decide (current = ∅)) as [->|Hcur].
  - unfold print at 1; simpl.
    destruct (5 <? cycle_number st + 1) eqn:Hfive; simpl.
    + destruct (Py.len (master_unique_followers st) =? 0) eqn:Hlen; simpl.
      * apply Z.ltb_lt in Hfive. apply Z.eqb_eq, len_zero in Hlen.
        rewrite decide_True by done. done.
      * apply Z.eqb_neq in Hlen. rewrite len_zero in Hlen.
        rewrite decide_False by (by intros (_ & _ & ?)).
        fold master. fold number.
        destruct (decide (target_count ≤ Py.len (update master ∅))) as [Ht|Ht].
        -- apply Z.leb_le in Ht. rewrite Ht. done.
        -- apply Z.leb_nle in Ht. rewrite Ht. finish_turn.
    + apply Z.ltb_nlt in Hfive.
      rewrite decide_False by (by intros (_ & ? & _)).
      fold master. fold number.
      destruct (decide (target_count ≤ Py.len (update master ∅))) as [Ht|Ht].
      * apply Z.leb_le in Ht. rewrite Ht. done.
      * apply Z.leb_nle in Ht. rewrite Ht. finish_turn.
  - rewrite decide_False by (by intros (? & _ & _)). simpl.
    fold master. fold number.
    destruct (decide (target_count ≤ Py.len (update master current))) as [Ht|Ht].
    + apply Z.leb_le in Ht. rewrite Ht. done.
    + apply Z.leb_nle in Ht. rewrite Ht. finish_turn.
Qed.

Lemma master_body_grows (st : master_state) (w : World) c :
  fst (body st w) = Return c →
  master_unique_followers st ⊆ master_unique_followers (handed c) ∧
  cycle_number (handed c) = cycle_number st + 1.
Proof.
  destruct (master_body_cases st w) as (w' & _ & Hcases).
  destruct (cycle w) as [[current|e|] w1]; simpl in Hcases.
  - repeat case_decide.
    + destruct Hcases as [-> _]. done.
    + destruct Hcases as [-> _]. intros [= <-]. simpl.
      split; [apply union_subseteq_l|done].
    + destruct Hcases as [-> _]. intros [= <-]. simpl.
      split; [apply union_subseteq_l|done].
  - destruct Hcases as [-> _]. done.
  - destruct Hcases as [-> _]. done.
Qed.

(** The process is only ever exited from a turn that is at least the
    sixth, on an empty cycle set, with an empty master set. *)
Lemma exit_needs_six_cycles (st : master_state) (w : World) code :
  fst (body st w) = Raise (SystemExit code) →
  code = 1 ∧ 5 < cycle_number st + 1 ∧ master_unique_followers st = ∅ ∧
  ∃ w1, cycle w = (Return ∅, w1).
Proof.
  destruct (master_body_cases st w) as (w' & _ & Hcases).
  destruct (cycle w) as [[current|e|] w1] eqn:Hcycle; simpl in Hcases.
  - repeat case_decide.
    + destruct Hcases as [-> _]. intros [= <-].
      destruct H as (-> & ? & ?). eauto.
    + destruct Hcases as [-> _]. done.
    + destruct Hcases as [-> _]. done.
  - destruct Hcases as [-> _]. intros [= ->].
    by destruct (scrape_single_cycle_raises _ _ _ _ _ _ _ Hcycle) as [?|[?|?]].
  - destruct Hcases as [-> _]. done.
Qed.

Lemma master_loop_grows fuel : ∀ (st : master_state) (w : World),
  master_unique_followers st ⊆ master_unique_followers (loop fuel st w).1.2.
Proof.
  induction fuel as [|fuel IH]; intros st w; simpl.
  - by destruct (_ <? _).
  - destruct (_ <? _); [|done].
    destruct (body st w) as [[[st'|st']|e|] w'] eqn:Hbody; simpl; try done.
    + destruct (master_body_grows st w (Continue st')) as [Hsub _];
        [by rewrite Hbody|].
      etrans; [exact Hsub|apply IH].
    + destruct (master_body_grows st w (Break st')) as [Hsub _];
        [by rewrite Hbody|done].
Qed.

(** A file that holds the snapshot of the master set lists it, and the
    loader of the diff reads the set back from it when its identifiers
    can be stored. *)
Lemma saved_lists (path : string) (master : gset string) (w : World) :
  saved path master w →
  lists path master w ∧
  ((∀ x, x ∈ master → storable x) →
   Diff.load_usernames (files w) path = Some master).
Proof.
  unfold saved, lists. intros Hfile. split.
  - destruct (SnapshotFacts.snapshot_lines master) as (lines & Htext & Hrest).
    exists lines. by rewrite Hfile, Htext.
  - intros Hall. unfold Diff.load_usernames. rewrite Hfile.
    by rewrite SnapshotFacts.usernames_of_snapshot.
Qed.

(** Along the loop, from the first completed turn on, the output file
    has been written, and it holds the master set if the last write did
    not fail; this is still so when the loop gives up. *)
Lemma master_loop_last_write fuel : ∀ (st : master_state) (w : World) (base : nat),
  0 ≤ cycle_number st → (base ≤ writes w)%nat →
  (0 < cycle_number st →
   ∃ n, writes w = S n ∧ (base ≤ n)%nat ∧
        (write_faults w n = None →
         saved output_filename (master_unique_followers st) w)) →
  write_faults (loop fuel st w).2 = write_faults w ∧
  (base ≤ writes (loop fuel st w).2)%nat ∧
  ((loop fuel st w).1.1 = Raise (SystemExit 1) →
   ∃ n, writes (loop fuel st w).2 = S n ∧ (base ≤ n)%nat ∧
        (write_faults w n = None →
         saved output_filename (master_unique_followers (loop fuel st w).1.2)
               (loop fuel st w).2)).
Proof.
  induction fuel as [|fuel IH]; intros st w base Hnum Hbase Hsaved; simpl.
  { by destruct (_ <? _). }
  destruct (_ <? _); [|done].
  destruct (master_body_cases st w) as (w' & Hw' & Hcases).
  destruct (cycle w) as [rc w1] eqn:Hcycle.
  pose proof (scrape_single_cycle_frame _ _ _ _ _ _ _ Hcycle)
    as (_ & _ & Hf & Hwf & Hwr & _).
  destruct (body st w) as [rb wb] eqn:Hbody. simpl in Hw'. subst wb.
  destruct rc as [current|e|]; simpl in Hcases.
  - repeat case_decide.
    + destruct Hcases as (-> & Hf' & Hwf' & Hwr' & _). simpl.
      split_and!; [congruence|lia|]. intros _.
      destruct Hsaved as (n & Hn & Hle & Hfile); [lia|].
      exists n. split_and!; [congruence|done|].
      intros Hok. unfold saved. rewrite Hf', Hf. by apply Hfile.
    + destruct Hcases as (-> & _ & Hwf' & Hwr' & _). simpl.
      split_and!; [congruence|lia|done].
    + destruct Hcases as (-> & Hwf' & Hwr' & _ & Hfiles). simpl.
      destruct (IH (MasterState (update (master_unique_followers st) current)
                                (cycle_number st + 1)) w' base)
        as (Hfaults & Hwrites & Hexit); simpl.
      * lia.
      * lia.
      * intros _. exists (writes w1). split_and!; [done|lia|].
        rewrite Hwf'. intros Hok. unfold saved. rewrite (Hfiles Hok).
        apply lookup_insert_eq.
      * split_and!; [congruence|done|].
        intros Hraise. destruct (Hexit Hraise) as (n & Hn & Hle & Hfile).
        exists n. split_and!; [done..|].
        intros Hok. apply Hfile. by rewrite Hwf', Hwf.
  - destruct Hcases as [-> ->]. simpl. split_and!; [done|lia|].
    intros [= ->].
    by destruct (scrape_single_cycle_raises _ _ _ _ _ _ _ Hcycle) as [?|[?|?]].
  - destruct Hcases as [-> ->]. simpl. split_and!; [done|lia|done].
Qed.

(** C3 (as amended). However the run ends, with the target reached or
    with the exit of the sustained failure, it has by then written the
    output file at least once; and if the last of its writes did not
    fail, the file lists the master set as accumulated: its
    identifiers, each once, in ascending order, one per line, which the
    loader of the diff reads back as the same set when they can be
    stored. *)
Theorem checkpoint_holds_master_set (fuel : nat) (w : World) :
  let run := collect pages_fuel HEADERS BASE_URL TARGET_ID target_count
                     output_filename fuel w in
  run.1.1 = Return tt ∨ run.1.1 = Raise (SystemExit 1) →
  ∃ n, writes run.2 = S n ∧ (writes w ≤ n)%nat ∧
       (write_faults w n = None →
        lists output_filename (master_unique_followers run.1.2) run.2 ∧
        ((∀ x, x ∈ master_unique_followers run.1.2 → storable x) →
         Diff.load_usernames (files run.2) output_filename
         = Some (master_unique_followers run.1.2))).
Proof.
  intros run. subst run. unfold collect, print. simpl.
  match goal with
  | |- context [master_loop _ _ _ _ _ _ fuel ?st ?w0] =>
      destruct (master_loop_last_write fuel st w0 (writes w))
        as (Hfaults & Hwrites & Hexit); [done|done|simpl; lia|];
      destruct (loop fuel st w0) as [[r st'] w'] eqn:Hloop
  end.
  simpl in *. destruct r as [[]|e|]; simpl.
  - intros _. unfold final_output, write_file, bind, print. simpl.
    exists (writes w'). split_and!.
    + by case_bool_decide.
    + done.
    + rewrite <-Hfaults. intros Hok. apply saved_lists. unfold saved.
      rewrite bool_decide_eq_true_2 by done. simpl. rewrite Hok.
      apply lookup_insert_eq.
  - intros [[=]|Hraise]. destruct (Hexit Hraise) as (n & Hn & Hle & Hfile).
    exists n. split_and!; [done..|]. intros Hok. by apply saved_lists, Hfile.
  - by intros [[=]|[=]].
Qed.

(** C7. A merge never removes an identifier, so the master set only
    grows, in content and in size, along any sequence of merges and
    along the loop itself; merging an empty cycle set changes
    nothing. *)
Theorem master_set_only_grows :
  (∀ master current : gset string,
     master ⊆ update master current ∧
     (size master ≤ size (update master current))%nat) ∧
  (∀ master : gset string, update master ∅ = master) ∧
  (∀ (master : gset string) (cycles : list (gset string)),
     master ⊆ foldl update master cycles ∧
     (size master ≤ size (foldl update master cycles))%nat) ∧
  (∀ fuel (st : master_state) (w : World),
     (master_unique_followers st
        ⊆ master_unique_followers (loop fuel st w).1.2) ∧
     (size (master_unique_followers st)
      ≤ size (master_unique_followers (loop fuel st w).1.2))%nat).
Proof.
  assert (∀ (master : gset string) cycles, master ⊆ foldl update master cycles)
    as Hfold.
  { intros master cycles. revert master.
    induction cycles as [|current cycles IH]; intros master; simpl; [done|].
    etrans; [|apply IH]. apply union_subseteq_l. }
  split_and!.
  - intros master current.
    split; [|apply subseteq_size]; apply union_subseteq_l.
  - intros master. apply (right_id_L ∅ (∪)).
  - intros master cycles. split; [|apply subseteq_size]; apply Hfold.
  - intros fuel st w. split; [|apply subseteq_size]; apply master_loop_grows.
Qed.

End Run.

Section Main.

Context (int : string → option Z).

(** C8. With a target of zero the loop stops at once, whatever the fuel
    and the state: no cycle is run and nothing is fetched; the run then
    only writes the master set it has. [main] itself turns such a
    target down before it reads the request file: it exits with code 1,
    having fetched and written nothing. *)
Theorem zero_target_fetches_nothing (fuel pages_fuel : nat)
    (HEADERS : gmap string string)
    (BASE_URL TARGET_ID output_filename prog request_filepath count : string)
    (st : master_state) (w : World) :
  int count = Some 0 →
  master_loop pages_fuel HEADERS BASE_URL TARGET_ID 0 output_filename
              fuel st w = (Return tt, st, w) ∧
  (let run := collect pages_fuel HEADERS BASE_URL TARGET_ID 0
                      output_filename fuel w in
   run.1.1 = Return tt ∧ cycle_number run.1.2 = 0 ∧
   master_unique_followers run.1.2 = ∅ ∧ requested run.2 = requested w) ∧
  (let run := main int fuel pages_fuel [prog; request_filepath; count] w in
   run.1 = Raise (SystemExit 1) ∧ requested run.2 = requested w ∧
   files run.2 = files w ∧ writes run.2 = writes w ∧
   stdout run.2 = MsgBadTargetCount :: stdout w).
Proof.
  intros Hint.
  assert (∀ f s w0, master_loop pages_fuel HEADERS BASE_URL TARGET_ID 0
                      output_filename f s w0 = (Return tt, s, w0)) as Hloop.
  { intros f s w0.
    assert ((Py.len (master_unique_followers s) <? 0) = false) as Hguard
      by (apply Z.ltb_ge; unfold Py.len; lia).
    destruct f; simpl; by rewrite Hguard. }
  split_and!.
  - apply Hloop.
  - unfold collect, print. simpl. rewrite Hloop.
    unfold final_output, write_file, bind, print. simpl.
    by case_bool_decide.
  - unfold main. rewrite Hint. simpl. done.
Qed.

End Main.

Lemma zero_target_fetches_nothing_witness :
  let int := λ s : string, if decide (s = "0") then Some 0 else None in
  let run := main int 10 10 ["follow_scraper.py"; "request.txt"; "0"]
                  (simulated example_feed) in
  int "0" = Some 0 ∧
  run.1 = Raise (SystemExit 1) ∧ requested run.2 = [] ∧ files run.2 = ∅.
Proof.
  intros int run.
  destruct (zero_target_fetches_nothing int 10 10 ∅ "B" "1" "out"
              "follow_scraper.py" "request.txt" "0" (MasterState ∅ 0)
              (simulated example_feed) eq_refl)
    as (_ & _ & Hexit & Hreq & Hfiles & _).
  split; [reflexivity|]. split; [exact Hexit|]. split; [exact Hreq|exact Hfiles].
Defined.

(** C2. The failing run: five cycles in a row return nothing while the
    master set is empty, and the loop does not give up: it waits, runs
    a sixth cycle, and this one reaching the target, the run ends as a
    success. *)
Theorem five_empty_cycles_do_not_abort :
  let run := collect 10 ∅ "B" "1" 1 "followers.txt" 10
                     (simulated five_failures_then_one) in
  run.1.1 = Return tt ∧
  master_unique_followers run.1.2 = {[ "a" ]} ∧ cycle_number run.1.2 = 6 ∧
  length (requested run.2) = 6%nat ∧
  (MsgAborting ∉ stdout run.2) ∧ MsgTargetReached ∈ stdout run.2 ∧
  length (List.filter (λ m, match m with MsgSkipping => true | _ => false end)
                      (stdout run.2)) = 5%nat.
Proof.
  vm_compute. split_and!; try done.
  - intros H. repeat (apply elem_of_cons in H as [[=]|H]).
    by apply elem_of_nil in H.
  - do 1 constructor. constructor.
Qed.

(** What the code does instead: it is the sixth empty cycle that ends
    the run. *)
Example sixth_empty_cycle_aborts :
  let run := collect 10 ∅ "B" "1" 1 "followers.txt" 10 (simulated []) in
  run.1.1 = Raise (SystemExit 1) ∧ cycle_number run.1.2 = 6 ∧
  hd_error (stdout run.2) = Some MsgAborting ∧
  files run.2 !! "followers.txt" = Some (Text EmptyString).
Proof. vm_compute. done. Qed.

Lemma checkpoint_holds_master_set_witness :
  (collect 10 ∅ "B" "1" 1 "followers.txt" 10
           (simulated five_failures_then_one)).1.1 = Return tt ∧
  lists "followers.txt" {[ "a" ]}
        (collect 10 ∅ "B" "1" 1 "followers.txt" 10
                 (simulated five_failures_then_one)).2.
Proof.
  assert ((collect 10 ∅ "B" "1" 1 "followers.txt" 10
             (simulated five_failures_then_one)).1.1 = Return tt) as Hrun
    by (vm_compute; reflexivity).
  split; [exact Hrun|].
  destruct (checkpoint_holds_master_set 10 ∅ "B" "1" 1 "followers.txt" 10
              (simulated five_failures_then_one) (or_introl Hrun))
    as (n & _ & _ & Hfile).
  assert (master_unique_followers
            (collect 10 ∅ "B" "1" 1 "followers.txt" 10
                     (simulated five_failures_then_one)).1.2 = {[ "a" ]})
    as Hmaster by (vm_compute; reflexivity).
  rewrite Hmaster in Hfile. exact (proj1 (Hfile eq_refl)).
Defined.

(** The file of that run, and the file of the run that gives up: both
    list the master set of the run. *)
Example files_of_the_runs :
  files (collect 10 ∅ "B" "1" 1 "followers.txt" 10
                 (simulated five_failures_then_one)).2 !! "followers.txt"
  = Some (Text "a") ∧
  files (collect 10 ∅ "B" "1" 3 "followers.txt" 10
                 (simulated example_feed)).2 !! "followers.txt"
  = Some (Text (one_per_line ["a"; "b"; "c"])).
Proof. vm_compute. done. Qed.

(** Without the condition on the last write, C3 fails: on a disk where
    every write fails, the run that reaches its target ends as a
    success, with one identifier in the master set, and no output file
    at all; the failure of the last write is only reported. *)
Lemma failed_write_leaves_no_file :
  run_on_broken_disk.1.1 = Return tt ∧
  master_unique_followers run_on_broken_disk.1.2 = {[ "a" ]} ∧
  files run_on_broken_disk.2 !! "followers.txt" = None ∧
  hd_error (stdout run_on_broken_disk.2) = Some MsgFinalSaveError ∧
  ¬ lists "followers.txt" {[ "a" ]} run_on_broken_disk.2.
Proof.
  assert (files run_on_broken_disk.2 !! "followers.txt" = None) as Hnone
    by (vm_compute; reflexivity).
  split_and!; [by vm_compute..|exact Hnone|by vm_compute|].
  intros (lines & Hfile & _). by rewrite Hnone in Hfile.
Qed.

End MasterFacts.

(** ** The request file *)

Module RequestFacts.
Import Py FollowScraper Spec Coverage PyFacts.

Lemma partition_app sep s before rest :
  partition sep s = Some (before, rest) → s = before +:+ sep +:+ rest.
Proof.
  assert (∀ p t r, drop_prefix p t = Some r → t = p +:+ r) as Hdrop.
  { induction p as [|a p IH]; intros [|b t] r; simpl; try done.
    - intros [= <-]. reflexivity.
    - intros [= <-]. reflexivity.
    - destruct (Ascii.eqb a b) eqn:Hab; [|done].
      apply Ascii.eqb_eq in Hab as ->. intros Hr.
      rewrite (IH _ _ Hr). reflexivity. }
  revert before. induction s as [|c s IH]; intros before; simpl.
  - destruct (drop_prefix sep EmptyString) eqn:Hd; [|done].
    intros [= <- <-]. apply (Hdrop _ _ _ Hd).
  - destruct (drop_prefix sep (String c s)) eqn:Hd.
    + intros [= <- <-]. apply (Hdrop _ _ _ Hd).
    + destruct (partition sep s) as [[b r]|] eqn:Hp; [|done].
      intros [= <- <-]. rewrite (IH _ eq_refl) at 1. reflexivity.
Qed.

Lemma split_nonempty sep s : split sep s ≠ [].
Proof.
  destruct s as [|c s]; simpl; [done|].
  destruct (Ascii.eqb c sep); [done|]. by destruct (split sep s).
Qed.

(** The first piece of a split is a prefix without the separator. *)
Lemma split_hd sep s :
  all_chars (λ c, negb (Ascii.eqb c sep)) (hd EmptyString (split sep s)) = true ∧
  ∃ rest, s = hd EmptyString (split sep s) +:+ rest.
Proof.
  induction s as [|c s [IHa [rest IHr]]]; simpl.
  - split; [done|by exists EmptyString].
  - destruct (Ascii.eqb c sep) eqn:Hc; simpl.
    + split; [done|]. by exists (String c s).
    + pose proof (split_nonempty sep s).
      destruct (split sep s) as [|l ls]; [done|]. simpl in *.
      rewrite Hc, IHa. split; [done|]. exists rest. by rewrite IHr at 1.
Qed.

(** What [parse_headers] keeps in the map. *)
Lemma parse_headers_kept lines : ∀ headers : gmap string string,
  map_Forall kept_header headers →
  map_Forall kept_header (parse_headers lines headers).
Proof.
  induction lines as [|line lines IH]; intros headers Hall; simpl; [done|].
  destruct (truthy (strip line)); simpl; [|done].
  destruct (partition ":" (strip line)) as [[name value]|]; [|by apply IH].
  case_bool_decide as Hskip; [by apply IH|].
  apply IH, map_Forall_insert_2; [|done].
  split_and!; [apply strip_trimmed..|done].
Qed.

Ltac run_load :=
  unfold load_request_data, read_lines, bind, config_exit, print, raise, ret;
  simpl.

(** X1. When [load_request_data] returns, it has changed nothing, the
    target id is a non-empty string of digits, the two credential
    headers are there, every header kept is clean and none is a skipped
    one, and the base URL is the Instagram host followed by a path that
    holds the API pattern right before the target id, with no query
    string. *)
Theorem load_request_data_returns (filepath : string) (w w' : World)
    (headers : gmap string string) (base_url target_id : string) :
  load_request_data filepath w = (Return (headers, base_url, target_id), w') →
  w' = w ∧ isdigit target_id = true ∧
  is_Some (headers !! "Cookie") ∧ is_Some (headers !! "X-IG-WWW-Claim") ∧
  map_Forall kept_header headers ∧
  all_chars (λ c, negb (Ascii.eqb c "?")) base_url = true ∧
  ∃ before rest,
    base_url = "https://www.instagram.com" +:+ before
                 +:+ BASE_API_PATH_PATTERN +:+ target_id +:+ rest.
Proof.
  run_load. destruct (files w !! filepath) as [[content|]|]; simpl; try done.
  destruct (readlines content) as [|first rest]; simpl; [done|].
  destruct (split " " (strip first)) as [|method [|target parts]];
    simpl; try done.
  case_decide; simpl; [|done].
  destruct (partition BASE_API_PATH_PATTERN (hd EmptyString (split "?" target)))
    as [[before after]|] eqn:Hpath; simpl; [|done].
  destruct (isdigit (hd EmptyString (split "/" after))) eqn:Hdigit;
    simpl; [|done].
  repeat case_decide; simpl; try done.
  intros [= <- <- <- <-].
  destruct (split_hd "?" target) as [Hquery _].
  destruct (split_hd "/" after) as [_ [rest' Hafter]].
  apply partition_app in Hpath.
  split; [done|]. split; [done|].
  split; [by apply not_eq_None_Some|]. split; [by apply not_eq_None_Some|].
  split; [by apply parse_headers_kept|].
  split; [by rewrite all_chars_app, Hquery|].
  exists before, rest'. by rewrite Hpath, Hafter at 1.
Qed.

Lemma load_request_data_returns_witness :
  let w := {| network := network (simulated []); requested := [];
              random := random (simulated []); draws := 0%nat; slept := [];
              files := {[ "request.txt" := Text example_request ]};
              write_faults := λ _, None; writes := 0%nat; stdout := [];
              timestamp := "T" |} in
  let headers : gmap string string :=
    {[ "Cookie" := "sessionid=abc; csrftoken=xyz";
       "X-IG-WWW-Claim" := "hmac.AR1" ]} in
  load_request_data "request.txt" w
  = (Return (headers,
             "https://www.instagram.com/api/v1/friendships/123456789/followers/",
             "123456789"), w) ∧
  isdigit "123456789" = true ∧ map_Forall kept_header headers.
Proof.
  intros w headers.
  assert (load_request_data "request.txt" w
          = (Return (headers,
               "https://www.instagram.com/api/v1/friendships/123456789/followers/",
               "123456789"), w)) as Hrun by (vm_compute; reflexivity).
  split; [exact Hrun|].
  destruct (load_request_data_returns _ _ _ _ _ _ Hrun)
    as (_ & Hdigit & _ & _ & Hkept & _).
  split; [exact Hdigit|exact Hkept].
Defined.

Ltac close_load :=
  split_and!; try done;
  try (intros ? [= <-]; first [by left|right; eauto]);
  try (intros [= ?]; by simplify_eq).

(** X2. Whatever the request file, [load_request_data] asks nothing of
    the network and writes nothing; it ends in no other way than by
    returning, by the error of an unreadable file, or by exit code 1
    after a message that names what is wrong: a file that is not there,
    or one that is empty, in particular. *)
Theorem load_request_data_failures (filepath : string) (w : World) :
  let run := load_request_data filepath w in
  (requested run.2 = requested w ∧ files run.2 = files w ∧
   writes run.2 = writes w ∧ slept run.2 = slept w ∧ draws run.2 = draws w) ∧
  run.1 ≠ OutOfFuel ∧
  (∀ e, run.1 = Raise e →
        e = OSError ∨
        (e = SystemExit 1 ∧
         ∃ err, stdout run.2 = MsgConfigError err :: stdout w)) ∧
  (files w !! filepath = None →
   run.1 = Raise (SystemExit 1) ∧
   stdout run.2 = MsgConfigError ConfigNotFound :: stdout w) ∧
  (files w !! filepath = Some (Text EmptyString) →
   run.1 = Raise (SystemExit 1) ∧
   stdout run.2 = MsgConfigError ConfigEmpty :: stdout w).
Proof.
  intros run. subst run. run_load.
  destruct (files w !! filepath) as [[content|]|] eqn:Hfile; simpl;
    [|close_load..].
  destruct (readlines content) as [|first rest] eqn:Hlines; simpl;
    [close_load|].
  assert (content ≠ EmptyString) as Hne by (by intros ->).
  destruct (split " " (strip first)) as [|method [|target parts]]; simpl;
    [close_load..|].
  case_decide; simpl; [|close_load].
  destruct (partition BASE_API_PATH_PATTERN
              (hd EmptyString (split "?" target))) as [[before after]|];
    simpl; [|close_load].
  destruct (isdigit (hd EmptyString (split "/" after))); simpl; [|close_load].
  repeat case_decide; simpl; close_load.
Qed.

(** X3. The header loop stops at the first blank line: what follows it
    is not read, whatever it holds. And whatever the lines, every header
    it keeps has a name and a value without whitespace at their ends,
    and a name that is not one of the skipped headers in any letter
    case. *)
Theorem parse_headers_stops_at_blank (before after : list string)
    (blank : string) (headers : gmap string string) :
  strip blank = EmptyString →
  parse_headers (before ++ blank :: after) headers
  = parse_headers before headers ∧
  map_Forall kept_header (parse_headers (before ++ blank :: after) ∅).
Proof.
  intros Hblank. split.
  - revert headers. induction before as [|line before IH]; intros headers; simpl.
    + by rewrite Hblank.
    + destruct (truthy (strip line)); simpl; [|done].
      destruct (partition ":" (strip line)) as [[name value]|]; [|by apply IH].
      case_bool_decide; by apply IH.
  - apply parse_headers_kept, map_Forall_empty.
Qed.

Lemma parse_headers_stops_at_blank_witness :
  strip ("  " +:+ newline) = EmptyString ∧
  parse_headers (["Cookie: a=b" +:+ newline; "HOST: x" +:+ newline]
                 ++ ("  " +:+ newline) :: ["X-Late: 1" +:+ newline]) ∅
  = {[ "Cookie" := "a=b" ]}.
Proof.
  split; [reflexivity|].
  rewrite (proj1 (parse_headers_stops_at_blank
                    ["Cookie: a=b" +:+ newline; "HOST: x" +:+ newline]
                    ["X-Late: 1" +:+ newline] ("  " +:+ newline) ∅ eq_refl)).
  vm_compute. reflexivity.
Defined.

End RequestFacts.

(** ** More on the page fetcher and the cycle *)

Module FetchFacts.
Import Py FollowScraper Spec Coverage CycleFacts.

Section Fetch.

Context (base_url target_id : string) (headers : gmap string string).


Abbreviation body_of st w := (cycle_body base_url target_id headers st w).
Abbreviation loop_of fuel st w :=
  (cycle_loop fuel base_url target_id headers st w).
Abbreviation cycle_of fuel w :=
  (scrape_single_cycle fuel base_url target_id headers w).

Ltac run_body :=
  unfold cycle_body, fetch_followers, bind, requests_get, print, ret, raise,
    lift, randint, sleep; simpl.






(** The comprehension on a list of users: the first element in which
    [user['username']] finds no value decides the exception. *)
Lemma usernames_in_first (before after : list user) (u : user) :
  Forall keyed before →
  usernames_in (before ++ u :: after)
  = match u with
    | NotDict => Raise TypeError
    | Dict None => Raise (KeyError "username")
    | Dict (Some _) => usernames_in (before ++ u :: after)
    end.
Proof.
  induction 1 as [|? before [n ->] _ IH]; simpl.
  - by destruct u as [[n|]|].
  - rewrite IH. by destruct u as [[n'|]|].
Qed.

Lemma usernames_in_keyed (us : list user) :
  Forall keyed us → ∃ names, usernames_in us = Return names.
Proof.
  induction 1 as [|? us [n ->] _ [names IH]]; [by eexists|].
  simpl. rewrite IH. by eexists.
Qed.

(** Users that all have the key, one of them with a value that is no
    string. *)
Lemma strings_in_not_str (us : list user) :
  Forall keyed us → ¬ Forall (λ u, is_Some (identifier_of u)) us →
  ∃ names, usernames_in us = Return names ∧ strings_in names = Raise TypeError.
Proof.
  induction 1 as [|? us [n ->] Hus IH]; intros Hnot.
  { destruct Hnot. constructor. }
  destruct n as [s|]; simpl.
  - destruct IH as (names & -> & Hs).
    { intros Hall. apply Hnot. constructor; [by eexists|done]. }
    exists (Str s :: names). simpl. by rewrite Hs.
  - destruct (usernames_in_keyed us) as [names Hnames]; [done|].
    rewrite Hnames. by exists (NotStr :: names).
Qed.

(** X7. A body outside the data model ends the cycle by an exception,
    and what the cycle had gathered is not returned. A JSON value that
    is not an object raises [AttributeError]. In a page with the status
    "ok": a value under ['users'] that cannot be iterated as a list,
    [null] for one, raises [TypeError]; the first element of the list
    in which [user['username']] finds no value raises [KeyError] when
    it is an object without the key, and [TypeError] when it is no
    object; and when every element has the key, a value under it that
    is no string raises [TypeError]. *)
Theorem malformed_body_raises (fuel : nat) (st : cycle_state) (w : World)
    (response : Response) :
  network w (length (requested w)) (page_url base_url (cursor st)) headers
  = Got response →
  raise_for_status response = false →
  (json response = Json PyOther →
   (loop_of (S fuel) st w).1 = Raise AttributeError) ∧
  (∀ d, json response = Json (PyDict d) → status d = Some "ok" →
     (users d = Some UsersOther →
      (loop_of (S fuel) st w).1 = Raise TypeError) ∧
     (∀ before after,
        users d = Some (UsersList (before ++ Dict None :: after)) →
        Forall keyed before →
        (loop_of (S fuel) st w).1 = Raise (KeyError "username")) ∧
     (∀ before after,
        users d = Some (UsersList (before ++ NotDict :: after)) →
        Forall keyed before →
        (loop_of (S fuel) st w).1 = Raise TypeError) ∧
     (∀ l, users d = Some (UsersList l) → Forall keyed l →
        ¬ Forall (λ u, is_Some (identifier_of u)) l →
        (loop_of (S fuel) st w).1 = Raise TypeError)).
Proof.
  intros Hans Hraise. split.
  - intros Hjson. simpl. run_body. by rewrite Hans, Hraise, Hjson.
  - intros d Hjson Hok.
    assert (∀ e,
      (match iterate (default (UsersList []) (users d)) with
       | Return us =>
           match usernames_in us with
           | Return names =>
               match strings_in names with
               | Return _ => Return tt
               | Raise e' => Raise e'
               | OutOfFuel => OutOfFuel
               end
           | Raise e' => Raise e'
           | OutOfFuel => OutOfFuel
           end
       | Raise e' => Raise e'
       | OutOfFuel => OutOfFuel
       end = Raise e) →
      (loop_of (S fuel) st w).1 = Raise e) as Hloop.
    { intros e. simpl. run_body.
      rewrite Hans, Hraise, Hjson. simpl. rewrite decide_True by done. simpl.
      destruct (iterate _) as [us| |]; simpl; [|by intros [= ->]|done].
      destruct (usernames_in us) as [names| |]; simpl;
        [|by intros [= ->]|done].
      destruct (strings_in names) as [usernames| |]; simpl;
        [done|by intros [= ->]|done]. }
    split_and!.
    + intros Hu. apply Hloop. by rewrite Hu.
    + intros before after Hu Hkeyed. apply Hloop. rewrite Hu. simpl.
      by rewrite (usernames_in_first _ _ _ Hkeyed).
    + intros before after Hu Hkeyed. apply Hloop. rewrite Hu. simpl.
      by rewrite (usernames_in_first _ _ _ Hkeyed).
    + intros l Hu Hkeyed Hnot. apply Hloop. rewrite Hu. simpl.
      destruct (strings_in_not_str l Hkeyed Hnot) as (names & -> & ->). done.
Qed.


End Fetch.


Lemma malformed_body_raises_witness :
  network (simulated [list_body]) 0%nat (page_url "B" None) ∅
  = list_body ∧
  (cycle_loop 1 "B" "1" ∅ (CycleState {[ "a" ]} None 1)
              (simulated [list_body])).1 = Raise AttributeError.
Proof.
  split; [reflexivity|].
  apply (proj1 (malformed_body_raises "B" "1" ∅ 0 (CycleState {[ "a" ]} None 1)
                  (simulated [list_body]) _ eq_refl eq_refl)).
  reflexivity.
Defined.

(** The exceptions of a page, evaluated: [null] under ['users'], an
    element that is a string, a name that is a number, an object
    without the key after one that has it. *)
Example exceptions_of_a_page :
  let cycle users :=
    (scrape_single_cycle 5 "B" "1" ∅ (simulated [page_with users])).1 in
  cycle UsersOther = Raise TypeError ∧
  cycle (UsersList [Dict (Some (Str "a")); NotDict]) = Raise TypeError ∧
  cycle (UsersList [Dict (Some NotStr); Dict (Some (Str "a"))])
  = Raise TypeError ∧
  cycle (UsersList [Dict (Some NotStr); Dict None])
  = Raise (KeyError "username") ∧
  cycle (UsersList [Dict (Some (Str "a")); Dict None])
  = Raise (KeyError "username") ∧
  cycle (UsersList []) = Return ∅.
Proof. vm_compute. done. Qed.

End FetchFacts.

(** ** More on the master accumulator *)

Module RunFacts.
Import Py FollowScraper Spec Coverage CycleFacts MasterFacts.

Section Run.

Context (pages_fuel : nat).
Context (HEADERS : gmap string string) (BASE_URL TARGET_ID : string).
Context (target_count : Z) (output_filename : string).

Abbreviation cycle w :=
  (scrape_single_cycle pages_fuel BASE_URL TARGET_ID HEADERS w).
Abbreviation body st w :=
  (master_body pages_fuel HEADERS BASE_URL TARGET_ID target_count
               output_filename st w).
Abbreviation loop fuel st w :=
  (master_loop pages_fuel HEADERS BASE_URL TARGET_ID target_count
               output_filename fuel st w).
Abbreviation run fuel w :=
  (collect pages_fuel HEADERS BASE_URL TARGET_ID target_count
           output_filename fuel w).

Lemma final_output_returns (master : gset string) (w : World) :
  (final_output output_filename master w).1 = Return tt.
Proof.
  unfold final_output, write_file, bind, print. simpl. by case_bool_decide.
Qed.

(** The loop, seen from [collect]. *)
Lemma collect_loop (fuel : nat) (w : World) :
  ∃ w0, files w0 = files w ∧ write_faults w0 = write_faults w ∧
        writes w0 = writes w ∧ requested w0 = requested w ∧
    (run fuel w).1.2 = (loop fuel (MasterState ∅ 0) w0).1.2 ∧
    match (loop fuel (MasterState ∅ 0) w0).1.1 with
    | Return _ => (run fuel w).1.1 = Return tt
    | stopped => (run fuel w).1.1 = stopped ∧
                 (run fuel w).2 = (loop fuel (MasterState ∅ 0) w0).2
    end.
Proof.
  exists (print (MsgInitialized TARGET_ID BASE_URL target_count) w).2.
  unfold collect. simpl. split_and!; [done..| |].
  - destruct (master_loop _ _ _ _ _ _ _ _ _) as [[[[]|e|] st] w1]; simpl; try done.
    by destruct (final_output _ _ _).
  - destruct (master_loop _ _ _ _ _ _ _ _ _) as [[[[]|e|] st] w1]; simpl; try done.
    pose proof (final_output_returns (master_unique_followers st) w1) as Hret.
    by destruct (final_output _ _ _).
Qed.

Lemma master_loop_target fuel : ∀ (st : master_state) (w : World),
  (loop fuel st w).1.1 = Return tt →
  target_count ≤ len (master_unique_followers (loop fuel st w).1.2).
Proof.
  induction fuel as [|fuel IH]; intros st w; simpl.
  { destruct (_ <? _) eqn:Hguard; [done|]. intros _. by apply Z.ltb_ge. }
  destruct (_ <? _) eqn:Hguard; [|intros _; by apply Z.ltb_ge].
  destruct (master_body_cases pages_fuel HEADERS BASE_URL TARGET_ID
              target_count output_filename st w) as (w' & _ & Hcases).
  destruct (body st w) as [rb wb] eqn:Hbody.
  destruct (cycle w) as [[current|e|] w1]; simpl in Hcases.
  - repeat case_decide.
    + destruct Hcases as [-> _]. done.
    + destruct Hcases as [-> _]. simpl. done.
    + destruct Hcases as [-> _]. apply IH.
  - destruct Hcases as [-> _]. done.
  - destruct Hcases as [-> _]. done.
Qed.

(** X9. A run that ends normally has reached its target: the master
    set it ends with has at least [target_count] identifiers. *)
Theorem success_means_target_reached (fuel : nat) (w : World) :
  (run fuel w).1.1 = Return tt →
  target_count ≤ len (master_unique_followers (run fuel w).1.2).
Proof.
  destruct (collect_loop fuel w) as (w0 & _ & _ & _ & _ & -> & Hend).
  pose proof (master_loop_target fuel (MasterState ∅ 0) w0) as Htarget.
  destruct ((loop fuel (MasterState ∅ 0) w0).1.1) as [[]|e|].
  - intros _. by apply Htarget.
  - destruct Hend as [-> _]. done.
  - destruct Hend as [-> _]. done.
Qed.

Lemma master_loop_exit fuel : ∀ (st : master_state) (w : World) code,
  (loop fuel st w).1.1 = Raise (SystemExit code) →
  code = 1 ∧ master_unique_followers (loop fuel st w).1.2 = ∅ ∧
  5 < cycle_number (loop fuel st w).1.2.
Proof.
  induction fuel as [|fuel IH]; intros st w code; simpl.
  { by destruct (_ <? _). }
  destruct (_ <? _); [|done].
  pose proof (exit_needs_six_cycles pages_fuel HEADERS BASE_URL TARGET_ID
                target_count output_filename st w) as Hexit.
  destruct (body st w) as [[[st'|st']|e|] wb]; simpl in *; try done.
  - apply IH.
  - intros [= ->]. destruct (Hexit code eq_refl) as (-> & ? & ? & _). done.
Qed.

(** X10. The run gives up, with exit code 1, only with an empty master
    set and in a cycle that is at least the sixth: once an identifier
    has been collected, no run of empty cycles ends it. *)
Theorem exit_only_with_nothing_collected (fuel : nat) (w : World) code :
  (run fuel w).1.1 = Raise (SystemExit code) →
  code = 1 ∧ master_unique_followers (run fuel w).1.2 = ∅ ∧
  6 ≤ cycle_number (run fuel w).1.2.
Proof.
  destruct (collect_loop fuel w) as (w0 & _ & _ & _ & _ & -> & Hend).
  pose proof (master_loop_exit fuel (MasterState ∅ 0) w0 code) as Hexit.
  destruct ((loop fuel (MasterState ∅ 0) w0).1.1) as [[]|e|].
  - by rewrite Hend.
  - destruct Hend as [-> _]. intros Hraise.
    destruct (Hexit Hraise) as (? & ? & ?). split_and!; [done..|lia].
  - destruct Hend as [-> _]. done.
Qed.

Lemma master_loop_checkpoint fuel : ∀ (st : master_state) (w : World),
  disk_ok w → 0 ≤ cycle_number st →
  (0 < cycle_number st →
   saved output_filename (master_unique_followers st) w) →
  ∀ e, (loop fuel st w).1.1 = Raise e →
       1 < cycle_number (loop fuel st w).1.2 →
       saved output_filename (master_unique_followers (loop fuel st w).1.2)
             (loop fuel st w).2.
Proof.
  induction fuel as [|fuel IH]; intros st w Hdisk Hnum Hsaved; simpl.
  { by destruct (_ <? _). }
  destruct (_ <? _); [|done].
  destruct (master_body_cases pages_fuel HEADERS BASE_URL TARGET_ID
              target_count output_filename st w) as (w' & Hw' & Hcases).
  destruct (cycle w) as [rc w1] eqn:Hcycle.
  pose proof (scrape_single_cycle_frame _ _ _ _ _ _ _ Hcycle)
    as (_ & _ & Hf & Hwf & Hwr & _).
  assert (disk_ok w1) as Hdisk1 by (intros n; by rewrite Hwf).
  destruct (body st w) as [rb wb] eqn:Hbody. simpl in Hw'. subst wb.
  destruct rc as [current|e|]; simpl in Hcases.
  - repeat case_decide.
    + destruct Hcases as (-> & Hf' & _). simpl. intros e _ Hcount.
      unfold saved. rewrite Hf', Hf. apply Hsaved. lia.
    + destruct Hcases as (-> & _). done.
    + destruct Hcases as (-> & Hwf' & _ & _ & Hfiles). simpl.
      apply IH; simpl.
      * intros n. by rewrite Hwf'.
      * lia.
      * intros _. unfold saved. rewrite (Hfiles (Hdisk1 _)).
        apply lookup_insert_eq.
  - destruct Hcases as [-> ->]. simpl. intros e' _ Hcount.
    unfold saved. rewrite Hf. apply Hsaved. lia.
  - destruct Hcases as [-> ->]. done.
Qed.

(** X11. A run that an exception ends after its first cycle, be it the
    exit of the sustained failure or the crash of a cycle on a
    malformed body, leaves on the disk, when no write has failed, the
    snapshot of the master set of the cycles completed before. *)
Theorem crash_keeps_last_checkpoint (fuel : nat) (w : World) e :
  disk_ok w → (run fuel w).1.1 = Raise e →
  1 < cycle_number (run fuel w).1.2 →
  saved output_filename (master_unique_followers (run fuel w).1.2)
        (run fuel w).2.
Proof.
  intros Hdisk.
  destruct (collect_loop fuel w) as (w0 & _ & Hwf & _ & _ & -> & Hend).
  assert (disk_ok w0) as Hdisk0 by (intros n; by rewrite Hwf).
  pose proof (master_loop_checkpoint fuel (MasterState ∅ 0) w0 Hdisk0) as Hsaved.
  destruct ((loop fuel (MasterState ∅ 0) w0).1.1) as [[]|e'|].
  - by rewrite Hend.
  - destruct Hend as [-> ->]. intros [= ->] Hcount.
    eapply Hsaved; simpl; [lia|lia|done|done].
  - destruct Hend as [-> _]. done.
Qed.

(** X12. A turn that does not end the run saves and waits: it makes one
    write of the output file, which then holds the snapshot of the
    merged master set unless the write fails, and sleeps once, for 30
    to 60 seconds, before the next cycle; the target is then not yet
    reached. *)
Theorem turn_saves_and_waits (st st' : master_state) (w : World) :
  (body st w).1 = Return (Continue st') →
  writes (body st w).2 = S (writes w) ∧
  (write_faults w (writes w) = None →
   saved output_filename (master_unique_followers st') (body st w).2) ∧
  (∃ t, 30 ≤ t ≤ 60 ∧ hd_error (slept (body st w).2) = Some t) ∧
  len (master_unique_followers st') < target_count.
Proof.
  unfold master_body, bind.
  destruct (cycle w) as [[current|e|] w1] eqn:Hcycle; [|done..].
  pose proof (scrape_single_cycle_frame _ _ _ _ _ _ _ Hcycle)
    as (_ & _ & Hf & Hwf & Hwr & _).
  assert (∀ w2 : World, files w2 = files w1 → write_faults w2 = write_faults w1 →
            writes w2 = writes w1 →
    let turn :=
      (let master := update (master_unique_followers st) current in
       if target_count <=? len master
       then print MsgTargetReached;;
            ret (Break (MasterState master (cycle_number st + 1)))
       else let* saved := write_file output_filename (snapshot master) in
            (if saved : bool then ret () else print MsgTemporarySaveError);;
            let* cycle_sleep_time := randint 30 60 in
            print (MsgWaiting cycle_sleep_time (cycle_number st + 1 + 1));;
            sleep cycle_sleep_time;;
            ret (Continue (MasterState master (cycle_number st + 1)))) w2 in
    turn.1 = Return (Continue st') →
    writes turn.2 = S (writes w) ∧
    (write_faults w (writes w) = None →
     saved output_filename (master_unique_followers st') turn.2) ∧
    (∃ t, 30 ≤ t ≤ 60 ∧ hd_error (slept turn.2) = Some t) ∧
    len (master_unique_followers st') < target_count) as Hturn.
  { intros w2 Hf2 Hwf2 Hwr2. simpl.
    destruct (target_count <=? _) eqn:Htarget.
    { unfold bind, print, ret. simpl. done. }
    apply Z.leb_gt in Htarget.
    unfold bind, write_file, print, ret, randint, sleep. simpl.
    rewrite Hwf2, Hwr2, Hwf, Hwr, Hf2.
    case_bool_decide as Hwrite; simpl; intros [= <-]; simpl.
    - split_and!; [done| |..|done].
      + intros _. unfold saved. simpl. rewrite Hwrite. apply lookup_insert_eq.
      + eexists. split; [|done].
        pose proof (Z.mod_pos_bound (Z.of_nat (random w2 (draws w2)))
                      (60 - 30 + 1)). lia.
    - split_and!; [done|done| |done].
      eexists. split; [|done].
      pose proof (Z.mod_pos_bound (Z.of_nat (random w2 (draws w2)))
                    (60 - 30 + 1)). lia. }
  destruct (decide (current = ∅)) as [->|Hcur].
  - unfold print at 1. simpl.
    destruct ((5 <? cycle_number st + 1) && _); simpl.
    + unfold bind, print, raise. simpl. done.
    + unfold ret at 1. unfold print at 1. simpl. apply Hturn; done.
  - unfold ret at 1. unfold print at 1. simpl. apply Hturn; done.
Qed.

Lemma cycle_body_same (st : cycle_state) (w1 w2 : World) :
  same_outside w1 w2 →
  (cycle_body BASE_URL TARGET_ID HEADERS st w1).1
  = (cycle_body BASE_URL TARGET_ID HEADERS st w2).1 ∧
  same_outside (cycle_body BASE_URL TARGET_ID HEADERS st w1).2
               (cycle_body BASE_URL TARGET_ID HEADERS st w2).2.
Proof.
  intros (Hn & Hr & Hrand & Hd).
  unfold cycle_body, fetch_followers, bind, requests_get, print, ret, raise,
    lift, randint, sleep, same_outside; simpl.
  rewrite Hn, Hr. destruct (network w2 _ _ _) as [|resp]; simpl; [done|].
  destruct (raise_for_status resp); simpl; [done|].
  destruct (json resp) as [|[|d|]]; simpl; try done.
  destruct (decide (status d = Some "ok")); simpl; [|done].
  destruct (iterate (default (UsersList []) (users d))) as [us| |]; simpl;
    [|done..].
  destruct (usernames_in us) as [names| |]; simpl; [|done..].
  destruct (strings_in names) as [usernames| |]; simpl; [|done..].
  destruct (more d); simpl; by rewrite ?Hrand, ?Hd.
Qed.

Lemma cycle_loop_same fuel : ∀ (st : cycle_state) (w1 w2 : World),
  same_outside w1 w2 →
  (cycle_loop fuel BASE_URL TARGET_ID HEADERS st w1).1
  = (cycle_loop fuel BASE_URL TARGET_ID HEADERS st w2).1 ∧
  same_outside (cycle_loop fuel BASE_URL TARGET_ID HEADERS st w1).2
               (cycle_loop fuel BASE_URL TARGET_ID HEADERS st w2).2.
Proof.
  induction fuel as [|fuel IH]; intros st w1 w2 Hsame; simpl; [done|].
  unfold bind. destruct (cycle_body_same st w1 w2 Hsame) as [Hout Hsame'].
  destruct (cycle_body _ _ _ st w1) as [r1 w1'],
           (cycle_body _ _ _ st w2) as [r2 w2']. simpl in *. subst r2.
  destruct r1 as [[st'|st']|e|]; simpl; try done. by apply IH.
Qed.

Lemma cycle_same (w1 w2 : World) :
  same_outside w1 w2 →
  (cycle w1).1 = (cycle w2).1 ∧ same_outside (cycle w1).2 (cycle w2).2.
Proof.
  intros Hsame. unfold scrape_single_cycle, bind, print, ret. simpl.
  match goal with
  | |- context [cycle_loop pages_fuel BASE_URL TARGET_ID HEADERS ?st ?wa] =>
      match goal with
      | |- context [cycle_loop pages_fuel BASE_URL TARGET_ID HEADERS st ?wb] =>
          lazymatch wa with
          | wb => fail
          | _ => destruct (cycle_loop_same pages_fuel st wa wb) as [Hout Hsame'];
                   [exact Hsame|];
                 destruct (cycle_loop pages_fuel BASE_URL TARGET_ID HEADERS st wa)
                   as [r1 w1'],
                   (cycle_loop pages_fuel BASE_URL TARGET_ID HEADERS st wb)
                   as [r2 w2']
          end
      end
  end.
  simpl in *. subst r2. by destruct r1.
Qed.

Lemma master_body_same (st : master_state) (w1 w2 : World) :
  same_outside w1 w2 →
  (body st w1).1 = (body st w2).1 ∧ same_outside (body st w1).2 (body st w2).2.
Proof.
  intros Hsame. unfold master_body, bind.
  destruct (cycle_same w1 w2 Hsame) as [Hout (Hn & Hr & Hrand & Hd)].
  destruct (cycle w1) as [r1 w1'], (cycle w2) as [r2 w2']. simpl in *. subst r2.
  destruct r1 as [current|e|]; [|done..].
  unfold print, ret, raise, write_file, randint, sleep, same_outside.
  destruct (decide (current = ∅)); simpl;
    repeat (destruct (_ <? _)); repeat (destruct (_ =? _)); simpl;
    try done;
    destruct (_ <=? _); simpl; try done;
    repeat case_bool_decide; simpl; by rewrite ?Hrand, ?Hd.
Qed.

Lemma master_loop_same fuel : ∀ (st : master_state) (w1 w2 : World),
  same_outside w1 w2 →
  (loop fuel st w1).1 = (loop fuel st w2).1 ∧
  same_outside (loop fuel st w1).2 (loop fuel st w2).2.
Proof.
  induction fuel as [|fuel IH]; intros st w1 w2 Hsame; simpl.
  { by destruct (_ <? _). }
  destruct (_ <? _); [|done].
  destruct (master_body_same st w1 w2 Hsame) as [Hout Hsame'].
  destruct (body st w1) as [r1 w1'], (body st w2) as [r2 w2'].
  simpl in *. subst r2.
  destruct r1 as [[st'|st']|e|]; simpl; try done. by apply IH.
Qed.

Lemma master_body_other_files (st : master_state) (w : World) (path : string) :
  path ≠ output_filename →
  files (body st w).2 !! path = files w !! path.
Proof.
  intros Hpath. unfold master_body, bind.
  destruct (cycle w) as [r w1] eqn:Hcycle.
  pose proof (scrape_single_cycle_frame _ _ _ _ _ _ _ Hcycle)
    as (_ & _ & Hf & _).
  destruct r as [current|e|]; simpl; [|by rewrite Hf..].
  unfold print, ret, raise, write_file, randint, sleep.
  destruct (decide (current = ∅)); simpl;
    repeat (destruct (_ <? _)); repeat (destruct (_ =? _)); simpl;
    try (by rewrite Hf);
    destruct (_ <=? _); simpl; try (by rewrite Hf);
    case_bool_decide; simpl;
    destruct (write_faults w1 (writes w1)) as [[f|]|]; simpl;
    rewrite ?lookup_insert_ne, ?lookup_delete_ne by done; by rewrite Hf.
Qed.

Lemma master_loop_other_files fuel (path : string) :
  path ≠ output_filename →
  ∀ (st : master_state) (w : World),
    files (loop fuel st w).2 !! path = files w !! path.
Proof.
  intros Hpath. induction fuel as [|fuel IH]; intros st w; simpl.
  { by destruct (_ <? _). }
  destruct (_ <? _); [|done].
  pose proof (master_body_other_files st w path Hpath) as Hbody.
  destruct (body st w) as [[[st'|st']|e|] w']; simpl in *; try done.
  by rewrite IH.
Qed.

(** X22. A run writes to its output file and to no other: every other
    path of the disk holds at the end what it held at the start,
    whether the writes succeed or fail. *)
Theorem run_touches_only_its_output (fuel : nat) (w : World) (path : string) :
  path ≠ output_filename →
  files (run fuel w).2 !! path = files w !! path.
Proof.
  intros Hpath. unfold collect, print. simpl.
  match goal with
  | |- context [master_loop _ _ _ _ _ _ fuel ?st ?w0] =>
      pose proof (master_loop_other_files fuel path Hpath st w0) as Hloop;
      destruct (loop fuel st w0) as [[r st1] w1]
  end.
  simpl in Hloop. destruct r as [[]|e|]; simpl; try done.
  unfold final_output, write_file, bind, print. simpl.
  case_bool_decide; simpl;
    destruct (write_faults w1 (writes w1)) as [[f|]|]; simpl;
    by rewrite ?lookup_insert_ne, ?lookup_delete_ne by done.
Qed.

(** X13. What the disk does has no part in what is collected: two runs
    that meet the same network and the same random draws end in the
    same way with the same master set and the same count of cycles,
    even when every write of one of them fails. *)
Theorem disk_failures_change_nothing (fuel : nat) (w1 w2 : World) :
  same_outside w1 w2 →
  (run fuel w1).1 = (run fuel w2).1 ∧
  requested (run fuel w1).2 = requested (run fuel w2).2.
Proof.
  intros (Hn & Hr & Hrand & Hd). unfold collect, print. simpl.
  match goal with
  | |- context [master_loop _ _ _ _ _ _ fuel ?st ?wa] =>
      match goal with
      | |- context [master_loop _ _ _ _ _ _ fuel st ?wb] =>
          lazymatch wa with
          | wb => fail
          | _ => destruct (master_loop_same fuel st wa wb)
                   as [Hout (_ & Hr' & _)]; [by split_and!|];
                 destruct (loop fuel st wa) as [[r1 st1] w1'],
                          (loop fuel st wb) as [[r2 st2] w2']
          end
      end
  end.
  simpl in *. injection Hout as -> ->.
  destruct r2 as [[]|e|]; simpl; try done.
  unfold final_output, write_file, bind, print. simpl.
  repeat case_bool_decide; simpl; done.
Qed.

End Run.

Lemma success_means_target_reached_witness :
  (collect 10 ∅ "B" "1" 1 "followers.txt" 10
           (simulated five_failures_then_one)).1.1 = Return tt ∧
  1 ≤ len (master_unique_followers
             (collect 10 ∅ "B" "1" 1 "followers.txt" 10
                      (simulated five_failures_then_one)).1.2).
Proof.
  assert ((collect 10 ∅ "B" "1" 1 "followers.txt" 10
             (simulated five_failures_then_one)).1.1 = Return tt) as Hrun
    by (vm_compute; reflexivity).
  split; [exact Hrun|]. by apply success_means_target_reached.
Defined.

Lemma exit_only_with_nothing_collected_witness :
  (collect 10 ∅ "B" "1" 1 "followers.txt" 10 (simulated [])).1.1
  = Raise (SystemExit 1) ∧
  master_unique_followers
    (collect 10 ∅ "B" "1" 1 "followers.txt" 10 (simulated [])).1.2 = ∅.
Proof.
  assert ((collect 10 ∅ "B" "1" 1 "followers.txt" 10 (simulated [])).1.1
          = Raise (SystemExit 1)) as Hrun by (vm_compute; reflexivity).
  split; [exact Hrun|].
  by destruct (exit_only_with_nothing_collected _ _ _ _ _ _ _ _ _ Hrun)
    as (_ & ? & _).
Defined.

Lemma crash_keeps_last_checkpoint_witness :
  disk_ok (simulated crash_feed) ∧
  (collect 10 ∅ "B" "1" 5 "followers.txt" 10 (simulated crash_feed)).1.1
  = Raise AttributeError ∧
  saved "followers.txt"
    (master_unique_followers
       (collect 10 ∅ "B" "1" 5 "followers.txt" 10 (simulated crash_feed)).1.2)
    (collect 10 ∅ "B" "1" 5 "followers.txt" 10 (simulated crash_feed)).2.
Proof.
  assert (disk_ok (simulated crash_feed)) as Hdisk by (intros n; reflexivity).
  assert ((collect 10 ∅ "B" "1" 5 "followers.txt" 10
             (simulated crash_feed)).1.1 = Raise AttributeError) as Hrun
    by (vm_compute; reflexivity).
  split; [exact Hdisk|]. split; [exact Hrun|].
  apply (crash_keeps_last_checkpoint _ _ _ _ _ _ _ _ _ Hdisk Hrun).
  vm_compute. reflexivity.
Defined.

Lemma turn_saves_and_waits_witness :
  (master_body 10 ∅ "B" "1" 1 "followers.txt" (MasterState ∅ 0)
               (simulated [])).1 = Return (Continue (MasterState ∅ 1)) ∧
  writes (master_body 10 ∅ "B" "1" 1 "followers.txt" (MasterState ∅ 0)
                      (simulated [])).2 = 1%nat.
Proof.
  assert ((master_body 10 ∅ "B" "1" 1 "followers.txt" (MasterState ∅ 0)
             (simulated [])).1 = Return (Continue (MasterState ∅ 1))) as Hrun
    by (vm_compute; reflexivity).
  split; [exact Hrun|].
  by destruct (turn_saves_and_waits _ _ _ _ _ _ _ _ _ Hrun) as (? & _).
Defined.

Section Main.

Context (int : string → option Z).

(** X14. [main] checks its arguments before anything else: with an
    argument count that is not three, or a target count that is not a
    number or not positive, it prints the matching message and exits
    with code 1, the world otherwise untouched; and when the request
    file is then refused, it ends as [load_request_data] does, in the
    world that it left. *)
Theorem main_checks_arguments_first (fuel pages_fuel : nat)
    (argv : list string) (w : World) :
  (length argv ≠ 3%nat →
   main int fuel pages_fuel argv w
   = (Raise (SystemExit 1), (print MsgUsage w).2)) ∧
  (∀ prog request_filepath count,
     argv = [prog; request_filepath; count] →
     (int count = None ∨ ∃ n, int count = Some n ∧ n ≤ 0) →
     main int fuel pages_fuel argv w
     = (Raise (SystemExit 1), (print MsgBadTargetCount w).2)) ∧
  (∀ prog request_filepath count n e w',
     argv = [prog; request_filepath; count] →
     int count = Some n → 0 < n →
     load_request_data request_filepath w = (Raise e, w') →
     main int fuel pages_fuel argv w = (Raise e, w')).
Proof.
  split_and!.
  - destruct argv as [|a [|b [|c [|d l]]]]; simpl; done.
  - intros prog path count -> [Hint|(n & Hint & Hn)]; simpl; rewrite Hint.
    + done.
    + apply Z.leb_le in Hn. by rewrite Hn.
  - intros prog path count n e w' -> Hint Hn Hload. simpl. rewrite Hint.
    apply Z.leb_gt in Hn. by rewrite Hn, Hload.
Qed.

End Main.

Lemma run_touches_only_its_output_witness :
  "request.txt" ≠ "followers.txt" ∧
  files (collect 10 ∅ "B" "1" 1 "followers.txt" 10
                 (simulated five_failures_then_one)).2 !! "request.txt"
  = files (simulated five_failures_then_one) !! "request.txt".
Proof.
  assert ("request.txt" ≠ "followers.txt") as Hpath by done.
  split; [exact Hpath|]. by apply run_touches_only_its_output.
Defined.

Lemma same_outside_broken_disk l :
  same_outside (simulated l) (simulated_broken_disk l).
Proof. done. Qed.

Lemma disk_failures_change_nothing_witness :
  same_outside (simulated five_failures_then_one)
               (simulated_broken_disk five_failures_then_one) ∧
  (collect 10 ∅ "B" "1" 1 "followers.txt" 10
           (simulated five_failures_then_one)).1
  = (collect 10 ∅ "B" "1" 1 "followers.txt" 10
             (simulated_broken_disk five_failures_then_one)).1.
Proof.
  split; [apply same_outside_broken_disk|].
  exact (proj1 (disk_failures_change_nothing 10 ∅ "B" "1" 1 "followers.txt" 10
                  (simulated five_failures_then_one)
                  (simulated_broken_disk five_failures_then_one)
                  (same_outside_broken_disk five_failures_then_one))).
Defined.

End RunFacts.

(** ** More on the diff and on the snapshot file *)

Module ReportFacts.
Import Py Spec Coverage PyFacts Diff.

(** X17. [main] of the diff computes a report exactly when it is given
    two file arguments and both files load; in every other case,
    a wrong count of arguments, a file that is missing or one that
    cannot be read, it exits with code 1 and compares nothing. *)
Theorem diff_main_needs_both_files (argv : list string) (fs : disk) :
  (∀ l, main argv fs = Returned l ↔
        ∃ prog file_old file_new old new,
          argv = [prog; file_old; file_new] ∧
          load_usernames fs file_old = Some old ∧
          load_usernames fs file_new = Some new ∧
          l = set_arithmetic old new) ∧
  ((∀ l, main argv fs ≠ Returned l) → main argv fs = SystemExit 1) ∧
  (∀ filepath, fs !! filepath = None ∨ fs !! filepath = Some Unreadable →
               load_usernames fs filepath = None).
Proof.
  split_and!.
  - intros l. split.
    + destruct argv as [|a [|b [|c [|d rest]]]]; simpl; try done.
      destruct (load_usernames fs b) as [old|] eqn:Hold,
               (load_usernames fs c) as [new|] eqn:Hnew; try done.
      intros [= <-]. by exists a, b, c, old, new.
    + intros (a & b & c & old & new & -> & Hold & Hnew & ->). simpl.
      by rewrite Hold, Hnew.
  - intros Hnone. destruct argv as [|a [|b [|c [|d rest]]]]; simpl; try done.
    destruct (load_usernames fs b) as [old|] eqn:Hold,
             (load_usernames fs c) as [new|] eqn:Hnew; try done.
    destruct (Hnone (set_arithmetic old new)). simpl. by rewrite Hold, Hnew.
  - intros filepath [H|H]; unfold load_usernames; by rewrite H.
Qed.

Lemma sorted_elements (s : gset string) :
  Sorted String.le (sorted (elements s)) ∧ NoDup (sorted (elements s)) ∧
  (∀ x, x ∈ sorted (elements s) ↔ x ∈ s) ∧
  length (sorted (elements s)) = size s.
Proof.
  unfold sorted. split_and!.
  - apply Sorted_merge_sort. apply _.
  - rewrite merge_sort_Permutation. apply NoDup_elements.
  - intros x. rewrite merge_sort_Permutation. apply elem_of_elements.
  - by rewrite merge_sort_Permutation.
Qed.

(** X18. The two detailed sections of the report: when the set is not
    empty the section lists its members, each once, in ascending
    order; when it is empty the section is the one line that says
    so. *)
Theorem report_sections_sorted (l : locals) :
  (lost_followers l ≠ ∅ →
   Sorted String.le (lost_section l) ∧ NoDup (lost_section l) ∧
   ∀ x, x ∈ lost_section l ↔ x ∈ lost_followers l) ∧
  (lost_followers l = ∅ →
   lost_section l = ["N/A - No followers were lost."]) ∧
  (new_followers l ≠ ∅ →
   Sorted String.le (new_section l) ∧ NoDup (new_section l) ∧
   ∀ x, x ∈ new_section l ↔ x ∈ new_followers l) ∧
  (new_followers l = ∅ →
   new_section l = ["N/A - No new followers were gained."]).
Proof.
  unfold lost_section, new_section. split_and!.
  - intros Hne. rewrite decide_False by done.
    by destruct (sorted_elements (lost_followers l)) as (? & ? & ? & _).
  - intros ->. by rewrite decide_True.
  - intros Hne. rewrite decide_False by done.
    by destruct (sorted_elements (new_followers l)) as (? & ? & ? & _).
  - intros ->. by rewrite decide_True.
Qed.

Lemma lines_of_storable (l : list string) :
  Forall storable l → strip <$> split_keepends (join newline l) = l.
Proof.
  induction 1 as [|x l (Hne & Ht & Hone) Hl IH]; [done|].
  assert (all_chars (λ c, negb (Ascii.eqb c LF)) x = true) as Hlf.
  { revert Hone. apply all_chars_weaken. intros c.
    rewrite negb_orb. by intros [? _]%andb_true_iff. }
  destruct l as [|y l].
  - simpl join. rewrite (split_keepends_last _ Hne Hlf). simpl.
    by rewrite (strip_id _ Ht).
  - rewrite SnapshotFacts.join_cons, SnapshotFacts.app_newline_cons,
      (split_keepends_line _ _ Hlf).
    rewrite fmap_cons, IH, (strip_app_newline _ Hne Ht). done.
Qed.

Lemma sorted_storable (master : gset string) :
  (∀ x, x ∈ master → storable x) → Forall storable (sorted (elements master)).
Proof.
  intros Hall. rewrite Forall_forall. intros x Hx. apply Hall.
  by apply (sorted_elements master).
Qed.

(** X19. The snapshot of a master set of storable identifiers is read
    as one line per identifier, nothing before and nothing after, the
    identifiers each once and in ascending order. *)
Theorem snapshot_one_line_each (master : gset string) :
  (∀ x, x ∈ master → storable x) →
  strip <$> readlines (FollowScraper.snapshot master)
  = sorted (elements master) ∧
  length (readlines (FollowScraper.snapshot master)) = size master ∧
  Sorted String.le (sorted (elements master)) ∧
  NoDup (sorted (elements master)).
Proof.
  intros Hall. pose proof (sorted_storable master Hall) as Hs.
  destruct (sorted_elements master) as (Hsorted & Hnodup & _ & Hlen).
  assert (strip <$> readlines (FollowScraper.snapshot master)
          = sorted (elements master)) as Hlines.
  { unfold FollowScraper.snapshot, readlines.
    rewrite universal_newlines_id; [by apply lines_of_storable|].
    apply SnapshotFacts.join_no_cr.
    eapply Forall_impl; [exact Hs|]. by intros x (_ & _ & ?). }
  split_and!; try done.
  by rewrite <-Hlen, <-Hlines, length_fmap.
Qed.

Lemma snapshot_one_line_each_witness :
  (∀ x, x ∈ ({[ "carol"; "alice" ]} : gset string) → storable x) ∧
  strip <$> readlines (FollowScraper.snapshot {[ "carol"; "alice" ]})
  = ["alice"; "carol"].
Proof.
  assert (∀ x, x ∈ ({[ "carol"; "alice" ]} : gset string) → storable x)
    as Hall.
  { intros x Hx.
    assert (x = "carol" ∨ x = "alice") as [->| ->]
      by (revert Hx; rewrite !elem_of_union, !elem_of_singleton; tauto);
      (split; [done|]; split; [|reflexivity]);
      (split; intros c [= <-]; reflexivity). }
  split; [exact Hall|].
  rewrite (proj1 (snapshot_one_line_each {[ "carol"; "alice" ]} Hall)).
  vm_compute. reflexivity.
Defined.

(** X20. Two master sets of storable identifiers that have the same
    snapshot are the same set: the output file tells them apart. *)
Theorem snapshot_tells_sets_apart (m1 m2 : gset string) :
  (∀ x, x ∈ m1 → storable x) → (∀ x, x ∈ m2 → storable x) →
  FollowScraper.snapshot m1 = FollowScraper.snapshot m2 → m1 = m2.
Proof.
  intros H1 H2 Heq.
  rewrite <-(SnapshotFacts.usernames_of_snapshot m1 H1),
          <-(SnapshotFacts.usernames_of_snapshot m2 H2).
  by rewrite Heq.
Qed.

Lemma snapshot_tells_sets_apart_witness :
  (∀ x, x ∈ ({[ "carol"; "alice" ]} : gset string) → storable x) ∧
  FollowScraper.snapshot {[ "carol"; "alice" ]}
  = FollowScraper.snapshot {[ "alice"; "carol" ]} ∧
  ({[ "carol"; "alice" ]} : gset string) = {[ "alice"; "carol" ]}.
Proof.
  assert (∀ m : gset string,
            (∀ x, x ∈ m → x = "carol" ∨ x = "alice") →
            ∀ x, x ∈ m → storable x) as Hall.
  { intros m Hm x Hx. destruct (Hm x Hx) as [->| ->];
      (split; [done|]; split; [|reflexivity]);
      (split; intros c [= <-]; reflexivity). }
  assert (∀ x, x ∈ ({[ "carol"; "alice" ]} : gset string) → storable x) as H1.
  { apply Hall. intros x. rewrite elem_of_union, !elem_of_singleton. tauto. }
  assert (∀ x, x ∈ ({[ "alice"; "carol" ]} : gset string) → storable x) as H2.
  { apply Hall. intros x. rewrite elem_of_union, !elem_of_singleton. tauto. }
  assert (FollowScraper.snapshot {[ "carol"; "alice" ]}
          = FollowScraper.snapshot {[ "alice"; "carol" ]}) as Heq
    by (vm_compute; reflexivity).
  split; [exact H1|]. split; [exact Heq|].
  exact (snapshot_tells_sets_apart _ _ H1 H2 Heq).
Defined.

Lemma universal_newlines_crlf x rest :
  all_chars (λ c, negb (Ascii.eqb c CR)) x = true →
  universal_newlines (x +:+ String CR (String LF rest))
  = x +:+ String LF (universal_newlines rest).
Proof.
  induction x as [|a x IH]; [done|]. simpl.
  intros [Ha Hx]%andb_true_iff. apply negb_true_iff in Ha.
  change (String a x +:+ String CR (String LF rest))
    with (String a (x +:+ String CR (String LF rest))).
  cbn [universal_newlines]. rewrite Ha, (IH Hx). done.
Qed.

Lemma universal_newlines_join_crlf (l : list string) :
  Forall one_line l →
  universal_newlines (join crlf l) = join newline l.
Proof.
  induction 1 as [|x l Hx Hl IH]; [done|].
  assert (all_chars (λ c, negb (Ascii.eqb c CR)) x = true) as Hx'.
  { revert Hx. apply all_chars_weaken. intros c.
    rewrite negb_orb. by intros [_ ?]%andb_true_iff. }
  destruct l as [|y l].
  - simpl. by apply universal_newlines_id.
  - rewrite !SnapshotFacts.join_cons.
    change (x +:+ crlf +:+ join crlf (y :: l))
      with (x +:+ String CR (String LF (join crlf (y :: l)))).
    by rewrite (universal_newlines_crlf _ _ Hx'), IH.
Qed.

(** X21. The loader reads back the same set from a snapshot whose lines
    end in [\r\n], as a platform with that line separator writes it:
    the carriage returns do not reach the identifiers. *)
Theorem crlf_snapshot_loads_the_same (master : gset string) :
  (∀ x, x ∈ master → storable x) →
  usernames_of (snapshot_crlf master) = master ∧
  usernames_of (snapshot_crlf master)
  = usernames_of (FollowScraper.snapshot master).
Proof.
  intros Hall. pose proof (sorted_storable master Hall) as Hs.
  assert (usernames_of (snapshot_crlf master)
          = usernames_of (FollowScraper.snapshot master)) as Heq.
  { unfold usernames_of, snapshot_crlf, FollowScraper.snapshot, readlines.
    rewrite universal_newlines_join_crlf, universal_newlines_id; [done| |].
    - apply SnapshotFacts.join_no_cr.
      eapply Forall_impl; [exact Hs|]. by intros x (_ & _ & ?).
    - eapply Forall_impl; [exact Hs|]. by intros x (_ & _ & ?). }
  split; [|exact Heq]. rewrite Heq.
  by apply SnapshotFacts.usernames_of_snapshot.
Qed.

Lemma crlf_snapshot_loads_the_same_witness :
  (∀ x, x ∈ ({[ "carol"; "alice" ]} : gset string) → storable x) ∧
  usernames_of (snapshot_crlf {[ "carol"; "alice" ]})
  = {[ "carol"; "alice" ]}.
Proof.
  assert (∀ x, x ∈ ({[ "carol"; "alice" ]} : gset string) → storable x)
    as Hall.
  { intros x Hx.
    assert (x = "carol" ∨ x = "alice") as [->| ->]
      by (revert Hx; rewrite !elem_of_union, !elem_of_singleton; tauto);
      (split; [done|]; split; [|reflexivity]);
      (split; intros c [= <-]; reflexivity). }
  split; [exact Hall|].
  exact (proj1 (crlf_snapshot_loads_the_same {[ "carol"; "alice" ]} Hall)).
Defined.

End ReportFacts.
